(** * Doorbell_Project: the WiFi presence detectors

    A shallow embedding of the two scripts of the repository,

      - [phone-detector.py]  (class [WifiPhoneDetector]), and
      - [wifi-monitor(1).py] (class [WifiMonitor]),

    together with the properties their specification states about the
    scan / diff / announce loop.

    Python values are modelled as follows.
      - [int] is [Z] (unbounded);
      - [str] is [string], restricted to ASCII text;
      - a [dict] is an association list in insertion order whose keys are
        pairwise distinct (the iteration order of a Python dictionary is its
        insertion order, and the order of the announcements depends on it);
      - [datetime.now()] is read from a clock that is a parameter;
      - text-to-speech, console output and the naming dialog are recorded in
        an output trace; the answers of the outside world (the scan, the
        user, the database engine) are inputs;
      - the values of a dictionary are objects that may be shared; the
        diff step of the phone detector is given both on values and on
        objects, and the two are shown to agree. *)

From stdpp Require Import list strings pretty.
From Stdlib Require Import Ascii ZArith Lia.

Local Open Scope Z_scope.
#[local] Set Warnings "-clear-no-such-hyp".

(** ** Python primitives used by the scripts *)

Module Py.

(** [str.isspace] on one ASCII character: TAB, LF, VT, FF, CR, the four
    separators FS, GS, RS, US, and the blank. *)
Definition isspace (c : ascii) : bool :=
  let n := nat_of_ascii c in
  ((9 <=? n)%nat && (n <=? 13)%nat) || ((28 <=? n)%nat && (n <=? 32)%nat).

Fixpoint lstrip (s : string) : string :=
  match s with
  | String c s' => if isspace c then lstrip s' else s
  | EmptyString => EmptyString
  end.

(** [rstrip] keeps a character when it is not a blank or when something is
    left after it. *)
Fixpoint rstrip (s : string) : string :=
  match s with
  | String c s' =>
      match rstrip s' with
      | EmptyString => if isspace c then EmptyString else String c EmptyString
      | r => String c r
      end
  | EmptyString => EmptyString
  end.

(** [s.strip()] *)
Definition strip (s : string) : string := rstrip (lstrip s).

(** [s.split(sep)] for a separator of one character: always at least one
    field. *)
Fixpoint split (sep : ascii) (s : string) : list string :=
  match s with
  | EmptyString => [EmptyString]
  | String c s' =>
      if decide (c = sep) then EmptyString :: split sep s'
      else match split sep s' with
           | f :: fs => String c f :: fs
           | [] => [String c EmptyString]
           end
  end.

(** [s.split(sep)[-1]] *)
Definition last_field (sep : ascii) (s : string) : string :=
  default EmptyString (last (split sep s)).

(** [s.replace(c, '')] for a pattern of one character. *)
Fixpoint remove_char (c : ascii) (s : string) : string :=
  match s with
  | EmptyString => EmptyString
  | String d s' => if decide (d = c) then remove_char c s' else String d (remove_char c s')
  end.

Fixpoint startswith (p s : string) : bool :=
  match p, s with
  | EmptyString, _ => true
  | String a p', String b s' => bool_decide (a = b) && startswith p' s'
  | String _ _, EmptyString => false
  end.

(** [sub in s] *)
Fixpoint contains (sub s : string) : bool :=
  startswith sub s ||
  match s with
  | EmptyString => false
  | String _ s' => contains sub s'
  end.

Definition digit (c : ascii) : option Z :=
  let n := nat_of_ascii c in
  if ((48 <=? n)%nat && (n <=? 57)%nat)%bool then Some (Z.of_nat n - 48) else None.

(** [int] reads ASCII text with the [isspace] of C: TAB, LF, VT, FF, CR and
    the blank, without the four separators that [str.strip] also removes. *)
Definition c_isspace (c : ascii) : bool :=
  let n := nat_of_ascii c in
  ((9 <=? n)%nat && (n <=? 13)%nat) || (n =? 32)%nat.

Fixpoint skip_spaces (s : string) : string :=
  match s with
  | String c s' => if c_isspace c then skip_spaces s' else s
  | EmptyString => EmptyString
  end.

(** [sys.int_max_str_digits], at its default value: [int] refuses a text
    of more digits. *)
Definition max_str_digits : nat := 4300.

(** The run of digits at the head of a decimal literal, where single
    underscores may separate digits: its value, the number of its digits
    and the text after it. [None] when an underscore is first, doubled or
    last in the run. [after_digit] tells whether the previous character
    was a digit. *)
Fixpoint int_digits (after_digit : bool) (acc : Z) (digits : nat) (s : string)
  : option (Z * nat * string) :=
  match s with
  | EmptyString => Some (acc, digits, EmptyString)
  | String c s' =>
      match digit c with
      | Some d => int_digits true (10 * acc + d) (S digits) s'
      | None =>
          if bool_decide (c = "_"%char) then
            if after_digit then
              match s' with
              | EmptyString => None
              | String c' _ =>
                  match digit c' with
                  | Some _ => int_digits false acc digits s'
                  | None => None
                  end
              end
            else None
          else Some (acc, digits, s)
      end
  end.

(** What [int(s)] does in base ten on ASCII text: blanks are skipped, then
    a sign, then the digits are counted and checked against the limit, and
    only blanks may follow. *)
Inductive int_result :=
| IntOk (n : Z)
| IntInvalid
| IntTooLong (digits : nat).

Definition int_unsigned (s : string) : int_result :=
  match int_digits false 0 0 s with
  | None => IntInvalid
  | Some (n, digits, rest) =>
      if (digits =? 0)%nat then IntInvalid
      else if (max_str_digits <? digits)%nat then IntTooLong digits
      else match skip_spaces rest with
           | EmptyString => IntOk n
           | String _ _ => IntInvalid
           end
  end.

Definition int_parse (s : string) : int_result :=
  match skip_spaces s with
  | String "-" s' =>
      match int_unsigned s' with
      | IntOk n => IntOk (- n)
      | r => r
      end
  | String "+" s' => int_unsigned s'
  | s' => int_unsigned s'
  end.

(** [int(s)]: [None] stands for [ValueError]. *)
Definition int (s : string) : option Z :=
  match int_parse s with
  | IntOk n => Some n
  | IntInvalid | IntTooLong _ => None
  end.

(** [str(n)] *)
Definition str (n : Z) : string := pretty n.

(** [repr(s)] on ASCII text: between apostrophes, or between double quotes
    when the text has an apostrophe and no double quote; the backslash and
    the enclosing quote are escaped, and so are the control characters. *)
Definition hex_digit (n : nat) : ascii :=
  ascii_of_nat (if (n <? 10)%nat then 48 + n else 87 + n).

Definition repr_char (quote c : ascii) : string :=
  let n := nat_of_ascii c in
  if bool_decide (c = quote) || bool_decide (c = "\"%char)
  then String "\" (String c EmptyString)
  else if (n =? 9)%nat then "\t"
  else if (n =? 10)%nat then "\n"
  else if (n =? 13)%nat then "\r"
  else if (n <? 32)%nat || (n =? 127)%nat
  then String "\" (String "x" (String (hex_digit (n / 16))
                                (String (hex_digit (n mod 16)) EmptyString)))
  else String c EmptyString.

Fixpoint repr_chars (quote : ascii) (s : string) : string :=
  match s with
  | EmptyString => EmptyString
  | String c s' => repr_char quote c +:+ repr_chars quote s'
  end.

Definition repr (s : string) : string :=
  let quote : ascii :=
    if contains "'" s && negb (contains (String "034"%char EmptyString) s)
    then "034"%char else "'"%char in
  String quote (repr_chars quote s +:+ String quote EmptyString).

(** [bool(s)]: a string is true when it is not empty. *)
Definition truthy (s : string) : bool :=
  match s with EmptyString => false | String _ _ => true end.

(** ['\n'.join(lines)] *)
Fixpoint unlines (ls : list string) : string :=
  match ls with
  | [] => EmptyString
  | [l] => l
  | l :: ls' => l +:+ String "010" (unlines ls')
  end.

End Py.

(** ** Dictionaries in insertion order *)

Section dict.
Context {V : Type}.

Definition dict := list (string * V).

Definition keys (d : dict) : list string := d.*1.

(** [d[k]] ([None] is [KeyError]) and [d.get(k)] *)
Fixpoint dict_get (d : dict) (k : string) : option V :=
  match d with
  | [] => None
  | (k', v) :: d' => if decide (k' = k) then Some v else dict_get d' k
  end.

(** [k in d] *)
Definition dict_mem (k : string) (d : dict) : bool :=
  bool_decide (is_Some (dict_get d k)).

(** [d[k] = v]: an existing key keeps its position, a new key goes last. *)
Fixpoint dict_set (d : dict) (k : string) (v : V) : dict :=
  match d with
  | [] => [(k, v)]
  | (k', v') :: d' =>
      if decide (k' = k) then (k', v) :: d' else (k', v') :: dict_set d' k v
  end.

(** [del d[k]] for a key that is present (nothing happens otherwise here;
    the scripts only delete keys they have just read from the dictionary). *)
Fixpoint dict_del (d : dict) (k : string) : dict :=
  match d with
  | [] => []
  | (k', v') :: d' => if decide (k' = k) then d' else (k', v') :: dict_del d' k
  end.

(** The invariant of a dictionary: no key twice. *)
Definition dict_wf (d : dict) : Prop := NoDup (keys d).
End dict.
Global Arguments dict : clear implicits.

(** ** phone-detector.py *)

Module PhoneDetector.

(** The value stored for a network: [{'signal': ..., 'first_seen': ...}]. *)
Record network := { signal : Z; first_seen : Z }.

(** [d['signal'] = s] *)
Definition set_signal (d : network) (s : Z) : network :=
  {| signal := s; first_seen := first_seen d |}.

(** The exceptions that leave [get_networks]: [int] on a text that is no
    number, a key that is missing, and whatever [check_output] raises
    besides [CalledProcessError]. *)
Inductive exn :=
| ValueError (literal : string)
| KeyError (key : string)
| OtherError (e : string).

(** [str(e)]: the message of [int] for the text it refused, which shows
    the [repr] of the text or, past the limit, the number of its digits;
    the [repr] of a missing key. *)
Definition str_exn (e : exn) : string :=
  match e with
  | ValueError literal =>
      match Py.int_parse literal with
      | Py.IntTooLong digits =>
          "Exceeds the limit (" +:+ Py.str (Z.of_nat Py.max_str_digits)
            +:+ " digits) for integer string conversion: value has "
            +:+ Py.str (Z.of_nat digits)
            +:+ " digits; use sys.set_int_max_str_digits() to increase the limit"
      | _ => "invalid literal for int() with base 10: " +:+ Py.repr literal
      end
  | KeyError key => Py.repr key
  | OtherError m => m
  end.

Inductive res (A : Type) := Ok (a : A) | Raise (e : exn).
Global Arguments Ok {A} a.
Global Arguments Raise {A} e.

(** What [subprocess.check_output] does in one cycle: it returns the text
    that [netsh] printed, raises [CalledProcessError] (exit status not zero),
    or raises something else (no such program). *)
Inductive scan :=
| Output (text : string)
| CalledProcessError (e : string)
| ScanError (e : string).

(** Console and loudspeaker. [Announce m] is one call of [announce]: the
    message is printed after a time stamp and then spoken. *)
Inductive output := Announce (m : string) | Print (m : string).

(** The two literals of [analyze_network_changes]. *)
Definition close_proximity : Z := 60.
Definition signal_jump : Z := 20.

(** The body of the [for line in output.split('\n')] loop of
    [get_networks]; [clock i] is what [datetime.now()] returns while line
    [i] is read. *)
Fixpoint parse_lines (clock : nat → Z) (i : nat) (lines : list string)
    (networks : dict network) (current_ssid : option string)
  : res (dict network) :=
  match lines with
  | [] => Ok networks
  | line :: rest =>
      if Py.contains "SSID" line && negb (Py.contains "BSSID" line) then
        let ssid := Py.strip (Py.last_field ":" line) in
        if Py.truthy ssid then
          parse_lines clock (S i) rest
            (dict_set networks ssid {| signal := 0; first_seen := clock i |})
            (Some ssid)
        else parse_lines clock (S i) rest networks current_ssid
      else
        match current_ssid with
        | Some cur =>
            if Py.contains "Signal" line then
              let literal := Py.remove_char "%" (Py.strip (Py.last_field ":" line)) in
              match Py.int literal with
              | None => Raise (ValueError literal)
              | Some sig =>
                  match dict_get networks cur with
                  | Some d =>
                      parse_lines clock (S i) rest
                        (dict_set networks cur (set_signal d sig)) current_ssid
                  | None => Raise (KeyError cur)
                  end
              end
            else parse_lines clock (S i) rest networks current_ssid
        | None => parse_lines clock (S i) rest networks current_ssid
        end
  end.

(** [get_networks]: the networks read from the scan and what is printed. *)
Definition get_networks (clock : nat → Z) (sc : scan)
  : res (dict network) * list output :=
  match sc with
  | Output text => (parse_lines clock 0 (Py.split "010" text) [] None, [])
  | CalledProcessError e => (Ok [], [Print ("Error scanning networks: " +:+ e)])
  | ScanError e => (Raise (OtherError e), [])
  end.

(** One constructor for each call of [announce] in
    [analyze_network_changes], with the values the message is built from:
    a network that is new, a known network whose signal rose by more than
    [signal_jump], and a known network that is no longer seen. *)
Inductive event :=
| Appeared (ssid : string) (sig : Z)
| StrengthenedSignificantly (ssid : string) (old_signal new_signal : Z)
| Disappeared (ssid : string).

Definition event_id (e : event) : string :=
  match e with
  | Appeared k _ | StrengthenedSignificantly k _ _ | Disappeared k => k
  end.

(** The text handed to [announce]. *)
Definition message (e : event) : string :=
  match e with
  | Appeared _ sig =>
      if bool_decide (sig > close_proximity) then
        "New device detected very close by with signal strength " +:+ Py.str sig +:+ "%"
      else "New device detected with signal strength " +:+ Py.str sig +:+ "%"
  | StrengthenedSignificantly ssid old new =>
      "Device " +:+ ssid +:+ " moving closer. Signal increased from "
        +:+ Py.str old +:+ "% to " +:+ Py.str new +:+ "%"
  | Disappeared ssid => "Device " +:+ ssid +:+ " moved out of range"
  end.

(** The state of the two loops: [self.known_networks] and the announcements
    made so far. *)
Definition diff_state : Type := dict network * list event.

(** Body of [for ssid, data in current_networks.items()]. *)
Definition check_new_or_stronger (st : diff_state) (item : string * network)
  : diff_state :=
  let '(known, evs) := st in
  let '(ssid, data) := item in
  match dict_get known ssid with
  | None => (dict_set known ssid data, evs ++ [Appeared ssid (signal data)])
  | Some old =>
      let old_signal := signal old in
      let new_signal := signal data in
      (dict_set known ssid (set_signal old new_signal),
       if bool_decide (new_signal > old_signal + signal_jump)
       then evs ++ [StrengthenedSignificantly ssid old_signal new_signal]
       else evs)
  end.

(** Body of [for ssid in list(self.known_networks.keys())]. *)
Definition check_disappeared (current_networks : dict network)
    (st : diff_state) (ssid : string) : diff_state :=
  let '(known, evs) := st in
  if dict_mem ssid current_networks then st
  else (dict_del known ssid, evs ++ [Disappeared ssid]).

(** [analyze_network_changes]: the new [self.known_networks] and the
    announcements, in the order they are made. *)
Definition analyze_network_changes (known_networks current_networks : dict network)
  : diff_state :=
  let st := foldl check_new_or_stronger (known_networks, []) current_networks in
  foldl (check_disappeared current_networks) st (keys st.1).

(** The two results of the step under the names the specification uses. *)
Definition diff (previous current : dict network) : list event :=
  (analyze_network_changes previous current).2.
Definition updated_state (previous current : dict network) : dict network :=
  (analyze_network_changes previous current).1.

(** *** The same step with a speech engine that may raise

    [announce] prints the message and hands it to the speech engine; an
    exception there is not caught in [analyze_network_changes] and leaves
    the step at once, before the change that was being announced is
    stored. [engine n] tells whether call number [n] of [announce] in the
    step returns. The step either completes or raises with the known state
    as it is then, the announcements made, and the one that raised. *)
Inductive step_result :=
| Completed (st : diff_state)
| Raised (known_networks : dict network) (said : list event) (failed : event).

(** [self.announce(...)], and then the store, the write or the deletion
    that gives [known']. *)
Definition announce_then (engine : nat → bool) (known : dict network)
    (evs : list event) (e : event) (known' : dict network) : step_result :=
  if engine (length evs) then Completed (known', evs ++ [e]) else Raised known evs e.

Definition check_new_or_stronger_io (engine : nat → bool) (r : step_result)
    (item : string * network) : step_result :=
  match r with
  | Raised _ _ _ => r
  | Completed (known, evs) =>
      let '(ssid, data) := item in
      match dict_get known ssid with
      | None =>
          announce_then engine known evs (Appeared ssid (signal data))
            (dict_set known ssid data)
      | Some old =>
          let old_signal := signal old in
          let new_signal := signal data in
          let known' := dict_set known ssid (set_signal old new_signal) in
          if bool_decide (new_signal > old_signal + signal_jump)
          then announce_then engine known evs
                 (StrengthenedSignificantly ssid old_signal new_signal) known'
          else Completed (known', evs)
      end
  end.

Definition check_disappeared_io (current_networks : dict network)
    (engine : nat → bool) (r : step_result) (ssid : string) : step_result :=
  match r with
  | Raised _ _ _ => r
  | Completed (known, evs) =>
      if dict_mem ssid current_networks then r
      else announce_then engine known evs (Disappeared ssid) (dict_del known ssid)
  end.

Definition analyze_network_changes_io (engine : nat → bool)
    (known_networks current_networks : dict network) : step_result :=
  match foldl (check_new_or_stronger_io engine) (Completed (known_networks, []))
          current_networks with
  | Completed st =>
      foldl (check_disappeared_io current_networks engine) (Completed st) (keys st.1)
  | Raised known said failed => Raised known said failed
  end.

(** *** The same step on objects

    The values of the two dictionaries are Python objects:
    [self.known_networks[ssid] = data] stores the very object of the scan,
    and [self.known_networks[ssid]['signal'] = new_signal] writes into the
    object that the known state holds. Below, a dictionary maps a key to
    the address of an object and [heap] gives every object its contents.
    [get_networks] makes new objects for every scan, so that in a run the
    known state shares no object with the scan it is compared with; the
    step on values above is what the step on objects does then, and also
    when the same scan is handed in again (see [analyze_objects_agree]). *)
Definition loc := nat.
Definition heap := loc → network.
Definition obj_state : Type := heap * dict loc * list event.

(** [obj['signal'] = s] for the object at [l]. *)
Definition heap_set_signal (h : heap) (l : loc) (s : Z) : heap :=
  λ l', if decide (l = l') then set_signal (h l) s else h l'.

Definition check_new_or_stronger_obj (st : obj_state) (item : string * loc)
  : obj_state :=
  let '(h, known, evs) := st in
  let '(ssid, data) := item in
  match dict_get known ssid with
  | None => (h, dict_set known ssid data, evs ++ [Appeared ssid (signal (h data))])
  | Some old =>
      let old_signal := signal (h old) in
      let new_signal := signal (h data) in
      (heap_set_signal h old new_signal, known,
       if bool_decide (new_signal > old_signal + signal_jump)
       then evs ++ [StrengthenedSignificantly ssid old_signal new_signal]
       else evs)
  end.

Definition check_disappeared_obj (current_networks : dict loc)
    (st : obj_state) (ssid : string) : obj_state :=
  let '(h, known, evs) := st in
  if dict_mem ssid current_networks then st
  else (h, dict_del known ssid, evs ++ [Disappeared ssid]).

Definition analyze_network_changes_obj (h : heap)
    (known_networks current_networks : dict loc) : obj_state :=
  let st := foldl check_new_or_stronger_obj (h, known_networks, []) current_networks in
  foldl (check_disappeared_obj current_networks) st (keys st.1.2).

(** The dictionary of values that a dictionary of objects stands for. *)
Definition contents (h : heap) (d : dict loc) : dict network :=
  (λ item, (item.1, h item.2)) <$> d.

(** No object under two keys, and an object of the known state that is
    also in the scan is there under the same key. *)
Definition separated (known current : dict loc) : Prop :=
  NoDup known.*2 ∧ NoDup current.*2 ∧
  ∀ k k' l, dict_get known k = Some l → dict_get current k' = Some l → k = k'.

(** One turn of the [while True] loop of [start_monitoring]: the new state,
    the outputs, and whether the loop goes on ([false]: an exception left
    the loop; [Error: ...] is printed). The speech engine is taken not to
    raise. *)
Definition cycle (clock : nat → Z) (known_networks : dict network) (sc : scan)
  : dict network * list output * bool :=
  match get_networks clock sc with
  | (Ok current_networks, out) =>
      let '(known', evs) := analyze_network_changes known_networks current_networks in
      (known', out ++ (Announce ∘ message <$> evs), true)
  | (Raise e, out) => (known_networks, out ++ [Print ("Error: " +:+ str_exn e)], false)
  end.

(** The loop over the scans of a run; [clocks n] is the clock of turn [n]. *)
Fixpoint monitoring (clocks : nat → nat → Z) (n : nat) (scans : list scan)
    (known_networks : dict network) : dict network * list output :=
  match scans with
  | [] => (known_networks, [])
  | sc :: rest =>
      let '(known', out, go_on) := cycle (clocks n) known_networks sc in
      if go_on then
        let '(final, out') := monitoring clocks (S n) rest known' in
        (final, out ++ out')
      else (known', out)
  end.

(** [start_monitoring] from a fresh detector ([known_networks = {}]). *)
Definition start_monitoring (clocks : nat → nat → Z) (scans : list scan)
  : dict network * list output :=
  let '(final, out) := monitoring clocks 0 scans [] in
  (final, Announce "Starting phone detection monitoring"
          :: Print "Press Ctrl+C to stop"
          :: Print "--------------------------------------------------" :: out).

End PhoneDetector.

(** ** wifi-monitor(1).py *)

Module WifiMonitor.

(** One entry of [iface.scan_results()]; the script reads [bssid] and
    [ssid]. *)
Record profile := { bssid : string; ssid : string; signal : Z }.

(** A row of the table [networks]; [bssid] is its primary key, the other
    columns may be NULL ([None]). *)
Record row := {
  row_bssid : string;
  row_ssid : option string;
  row_custom_name : option string;
  first_seen : string;
  last_seen : string
}.

Definition database := list row.

(** A value of [self.known_networks]:
    [{'ssid': ..., 'custom_name': ...}]. *)
Record entry := { known_ssid : option string; custom_name : option string }.

(** What happens in the dialog of [prompt_for_name]: the window cannot be
    made ([tk.Tk()] or [withdraw] raises, and [askstring] is not called),
    [askstring] raises, the user closes the dialog ([None]), or the user
    confirms a text, which may be empty. *)
Inductive dialog :=
| WindowError (e : string)
| DialogError (e : string)
| Cancelled
| Entered (name : string).

(** What the outside world does during one call of [prompt_for_name]: the
    answer to the dialog, whether the storage engine fails on the INSERT,
    and the formatted [datetime.now()]. Closing the window and writing the
    log are taken to succeed. *)
Record prompt_input := { typed : dialog; storage_fails : bool; now : string }.

(** What [iface.scan()] and [iface.scan_results()] do in one cycle. *)
Inductive scan := ScanResults (results : list profile) | ScanFailed (e : string).

(** Loudspeaker, console and dialog. [Say m] is one call of
    [announce_network]; [Ask ssid bssid] is one call of [askstring]. Log
    records are not part of the trace. *)
Inductive output :=
| Say (m : string)
| Print (m : string)
| Ask (ssid bssid : string).

(** The monitor: the cache [self.known_networks], the table behind
    [self.db_path], and the number of prompts made so far (the index of the
    next [prompt_input]). *)
Record state := {
  known_networks : dict entry;
  db : database;
  prompts : nat
}.

(** [bool(x)] for a value that is [None] or a string. *)
Definition truthy (x : option string) : bool :=
  match x with Some s => Py.truthy s | None => false end.

(** [INSERT INTO networks ... VALUES (...)] followed by [commit]: it fails
    ([None]: an exception, nothing is stored) when the engine fails or when
    a row with this primary key exists. *)
Definition db_insert (d : database) (fails : bool) (r : row) : option database :=
  if fails then None
  else if bool_decide (row_bssid r ∈ row_bssid <$> d) then None
  else Some (d ++ [r]).

(** [load_known_networks]: [SELECT bssid, ssid, custom_name FROM networks]
    into the cache. *)
Definition load_known_networks (d : database) : dict entry :=
  foldl (λ known r,
           dict_set known (row_bssid r)
             {| known_ssid := row_ssid r; custom_name := row_custom_name r |})
        [] d.

(** [__init__], once the interface and the speech engine are there. *)
Definition init (d : database) : state :=
  {| known_networks := load_known_networks d; db := d; prompts := 0 |}.

(** [prompt_for_name]: the value returned and the new state. *)
Definition prompt_for_name (inp : prompt_input) (st : state) (ssid bssid : string)
  : option string * state :=
  let st0 := {| known_networks := known_networks st; db := db st;
                prompts := S (prompts st) |} in
  match typed inp with
  | WindowError _ => (None, st0)
  | DialogError _ => (None, st0)
  | Cancelled => (None, st0)
  | Entered name =>
      if Py.truthy name then
        match db_insert (db st) (storage_fails inp)
                {| row_bssid := bssid; row_ssid := Some ssid;
                   row_custom_name := Some name;
                   first_seen := now inp; last_seen := now inp |} with
        | Some db' =>
            (Some name,
             {| known_networks :=
                  dict_set (known_networks st) bssid
                    {| known_ssid := Some ssid; custom_name := Some name |};
                db := db';
                prompts := S (prompts st) |})
        | None => (None, st0)
        end
      else (Some name, st0)
  end.

(** The calls of [askstring] in one call of [prompt_for_name]: one, once
    the window is there. *)
Definition prompt_dialogs (inp : prompt_input) (ssid bssid : string) : list output :=
  match typed inp with
  | WindowError _ => []
  | DialogError _ | Cancelled | Entered _ => [Ask ssid bssid]
  end.

(** [scan_networks]: an exception is logged and gives [[]]. *)
Definition scan_networks (sc : scan) : list profile :=
  match sc with
  | ScanResults results => results
  | ScanFailed _ => []
  end.

(** Body of [for network in networks] in [monitor]; [world n] is what
    happens during prompt number [n]. *)
Definition visit (world : nat → prompt_input) (acc : state * list output)
    (network : profile) : state * list output :=
  let '(st, out) := acc in
  if negb (Py.truthy (ssid network)) then acc
  else
    match dict_get (known_networks st) (bssid network) with
    | None =>
        let out1 := out ++ [Print (String "010" "New network detected: " +:+ ssid network);
                            Say "New signal detected"]
                        ++ prompt_dialogs (world (prompts st)) (ssid network) (bssid network) in
        let '(name, st') :=
          prompt_for_name (world (prompts st)) st (ssid network) (bssid network) in
        if truthy name then (st', out1 ++ [Say ("Network named " +:+ default "" name)])
        else (st', out1)
    | Some e =>
        if truthy (custom_name e) then
          let n := default "" (custom_name e) in
          (st, out ++ [Print ("Detected known network: " +:+ n +:+ " ("
                                +:+ ssid network +:+ ")");
                       Say ("Detected " +:+ n)])
        else acc
    end.

(** One turn of the [while True] loop of [monitor]. *)
Definition monitor_cycle (world : nat → prompt_input) (st : state) (sc : scan)
  : state * list output :=
  foldl (visit world) (st, []) (scan_networks sc).

(** The loop over the scans of a run. *)
Fixpoint monitor (world : nat → prompt_input) (scans : list scan) (st : state)
  : state * list output :=
  match scans with
  | [] => (st, [])
  | sc :: rest =>
      let '(st1, out1) := monitor_cycle world st sc in
      let '(st2, out2) := monitor world rest st1 in
      (st2, out1 ++ out2)
  end.

End WifiMonitor.


(** ** Vocabulary of the properties *)

Section analyze_vocabulary.
Import PhoneDetector.
Implicit Types (known current : dict network) (k : string) (evs : list event).

(** What the first loop stores for a scanned network. *)
Definition merged known (item : string * network) : network :=
  match dict_get known item.1 with
  | None => item.2
  | Some old => set_signal old (signal item.2)
  end.

(** What the first loop announces for a scanned network. *)
Definition announced known (item : string * network) : option event :=
  match dict_get known item.1 with
  | None => Some (Appeared item.1 (signal item.2))
  | Some old =>
      if bool_decide (signal item.2 > signal old + signal_jump)
      then Some (StrengthenedSignificantly item.1 (signal old) (signal item.2))
      else None
  end.

Definition events_of k evs : list event := filter (λ e, event_id e = k) evs.


(** The keys the second loop deletes. *)
Definition gone known current : list string :=
  filter (λ k, dict_mem k current = false)
    (keys (foldl check_new_or_stronger (known, []) current).1).

End analyze_vocabulary.

Section order_vocabulary.
Import PhoneDetector.

(** A known network that the scan has again: its entry with the scanned
    signal. A known network that the scan has not: nothing. *)
Definition refreshed (current : dict network) (item : string * network)
  : option (string * network) :=
  (λ d, (item.1, set_signal item.2 (signal d))) <$> dict_get current item.1.

(** The scanned networks that the known state does not have. *)
Definition newcomers (known current : dict network) : dict network :=
  filter (λ item, item.1 ∉ keys known) (current : list (string * network)).

(** The announcements of several steps in a row, each on the state that
    the step before has left. *)
Fixpoint run_diffs (known : dict network) (scans : list (dict network)) : list event :=
  match scans with
  | [] => []
  | current :: rest =>
      diff known current ++ run_diffs (updated_state known current) rest
  end.

(** Every scan has the network [k], and its signal is never more than
    [signal_jump] above the signal before, which at first is [s]. *)
Fixpoint gradual (k : string) (s : Z) (scans : list (dict network)) : Prop :=
  match scans with
  | [] => True
  | current :: rest =>
      ∃ d, dict_get current k = Some d ∧ signal d ≤ s + signal_jump
           ∧ gradual k (signal d) rest
  end.
End order_vocabulary.



(** A line that names a network: it has [SSID] and not [BSSID]. *)
Definition names_network (line : string) : bool :=
  Py.contains "SSID" line && negb (Py.contains "BSSID" line).

Definition name_of (line : string) : string := Py.strip (Py.last_field ":" line).

(** What [get_networks] hands to [int] for a line with [Signal]. *)
Definition signal_text (line : string) : string :=
  Py.remove_char "%" (Py.strip (Py.last_field ":" line)).

(** No character of the text is a blank, in the sense of [str.isspace]. *)
Fixpoint no_blank (s : string) : bool :=
  match s with
  | EmptyString => true
  | String c s' => negb (Py.isspace c) && no_blank s'
  end.

(** No character of the text is a blank, a colon or a per cent sign. *)
Fixpoint plain (s : string) : bool :=
  match s with
  | EmptyString => true
  | String c s' =>
      negb (Py.isspace c) && negb (bool_decide (c = ":"%char))
        && negb (bool_decide (c = "%"%char)) && plain s'
  end.

(** Every character of the text is a decimal digit. *)
Fixpoint all_digits (s : string) : bool :=
  match s with
  | EmptyString => true
  | String c s' => bool_decide (is_Some (Py.digit c)) && all_digits s'
  end.

(** The number of digits of an integer as [str] writes it. *)
Definition decimal_digits (n : Z) : nat := String.length (Py.str (Z.abs n)).

(** The lines of one network in a listing: a line that names the network,
    lines of other details, one line with the signal, more details. *)
Record block := {
  name_head : string;
  block_name : string;
  details : list string;
  signal_head : string;
  block_signal : Z;
  more_details : list string
}.

Definition name_line (b : block) : string := name_head b +:+ ": " +:+ block_name b.

Definition signal_line (b : block) : string :=
  signal_head b +:+ ": " +:+ Py.str (block_signal b) +:+ "%".

Definition block_lines (b : block) : list string :=
  name_line b :: details b ++ [signal_line b] ++ more_details b.

(** A line that [get_networks] passes over: it names no network and has
    no [Signal]. *)
Definition other_line (line : string) : Prop :=
  names_network line = false ∧ Py.contains "Signal" line = false.

Definition listed_block (b : block) : Prop :=
  names_network (name_line b) = true ∧
  block_name b ≠ "" ∧ Py.strip (block_name b) = block_name b ∧
  Py.contains ":" (block_name b) = false ∧
  Forall other_line (details b) ∧
  names_network (signal_line b) = false ∧ Py.contains "Signal" (signal_line b) = true ∧
  (decimal_digits (block_signal b) ≤ Py.max_str_digits)%nat ∧
  Forall other_line (more_details b).

(** The networks of a listing whose first line has number [i]. *)
Fixpoint listed_networks (clock : nat → Z) (i : nat) (blocks : list block)
  : dict PhoneDetector.network :=
  match blocks with
  | [] => []
  | b :: rest =>
      (block_name b,
       {| PhoneDetector.signal := block_signal b; PhoneDetector.first_seen := clock i |})
        :: listed_networks clock (i + length (block_lines b)) rest
  end.

(** The text of a scan with two access points of one network name. *)
Definition two_access_points_one_name : string :=
  Py.unlines [
    "SSID 1 : Home";
    "    Network type            : Infrastructure";
    "    Authentication          : WPA2-Personal";
    "    Encryption              : CCMP";
    "    BSSID 1                 : aa:aa:aa:aa:aa:01";
    "         Signal             : 40%";
    "    BSSID 2                 : aa:aa:aa:aa:aa:02";
    "         Signal             : 80%";
    ""].

(** The text of a scan with one access point that hides its name. *)
Definition one_access_point_without_name : string :=
  Py.unlines [
    "SSID 1 : ";
    "    Network type            : Infrastructure";
    "    Authentication          : WPA2-Personal";
    "    Encryption              : CCMP";
    "    BSSID 1                 : bb:bb:bb:bb:bb:02";
    "         Signal             : 85%";
    ""].

Section monitor_vocabulary.
Import WifiMonitor.

(** What [visit] adds to the trace for one network, and the state it leaves. *)
Definition visit_out (world : nat → prompt_input) (st : state) (network : profile)
  : list output :=
  (visit world (st, []) network).2.

Definition visit_state (world : nat → prompt_input) (st : state) (network : profile)
  : state :=
  (visit world (st, []) network).1.

(** The cache entry that [load_known_networks] makes of a row. *)
Definition entry_of (r : row) : entry :=
  {| known_ssid := row_ssid r; custom_name := row_custom_name r |}.

(** The row that [prompt_for_name] inserts. *)
Definition named_row (bssid ssid name now : string) : row :=
  {| row_bssid := bssid; row_ssid := Some ssid; row_custom_name := Some name;
     first_seen := now; last_seen := now |}.

(** A row as [prompt_for_name] writes it: both time stamps equal, a network
    name and a label that are not empty. *)
Definition fresh_row (r : row) : Prop :=
  first_seen r = last_seen r ∧
  ∃ s n, s ≠ "" ∧ n ≠ "" ∧ row_ssid r = Some s ∧ row_custom_name r = Some n.

(** The primary key of the table: no hardware address in two rows. *)
Definition db_wf (d : database) : Prop := NoDup (row_bssid <$> d).

(** The cache is what [load_known_networks] reads from the table. *)
Definition coherent (st : state) : Prop :=
  db_wf (db st) ∧ known_networks st = load_known_networks (db st).


End monitor_vocabulary.

(** * Properties *)

(** ** Dictionaries *)

Section dict_facts.
Context {V : Type}.
Implicit Types (d : dict V) (k : string) (v : V).

Lemma dict_wf_cons d k v : dict_wf ((k, v) :: d) ↔ (k ∉ keys d) ∧ dict_wf d.
Proof. unfold dict_wf, keys. simpl. apply NoDup_cons. Qed.

Lemma dict_get_Some_keys d k v : dict_get d k = Some v → k ∈ keys d.
Proof.
  induction d as [|[k' v'] d IH]; simpl; [done|].
  case_decide; intros ?; simplify_eq; [left | right; auto].
Qed.

Lemma dict_get_None_keys d k : dict_get d k = None ↔ k ∉ keys d.
Proof.
  induction d as [|[k' v'] d IH]; simpl.
  - split; [intros _; apply not_elem_of_nil | done].
  - rewrite not_elem_of_cons. case_decide as Hk; subst.
    + split; [done | by intros [? _]].
    + rewrite IH. split; [by split | by intros [_ ?]].
Qed.

Lemma dict_mem_keys d k : dict_mem k d = true ↔ k ∈ keys d.
Proof.
  unfold dict_mem. rewrite bool_decide_eq_true.
  destruct (dict_get d k) eqn:E.
  - split; [intros _; eauto using dict_get_Some_keys | eauto].
  - split; [by intros [? ?] | by intros ?%dict_get_None_keys].
Qed.

Lemma dict_mem_false d k : dict_mem k d = false ↔ dict_get d k = None.
Proof.
  unfold dict_mem. rewrite bool_decide_eq_false.
  destruct (dict_get d k) as [v|].
  - split; [intros []; eauto | done].
  - split; [done | by intros _ [? ?]].
Qed.

Lemma dict_get_set_eq d k v : dict_get (dict_set d k v) k = Some v.
Proof.
  induction d as [|[k' v'] d IH]; simpl; [by rewrite decide_True|].
  case_decide; simpl; [by rewrite decide_True | by rewrite decide_False].
Qed.

Lemma dict_get_set_ne d k k' v : k ≠ k' → dict_get (dict_set d k v) k' = dict_get d k'.
Proof.
  intros Hne. induction d as [|[k0 v0] d IH]; simpl; [by rewrite decide_False|].
  case_decide; simpl; subst; [by rewrite !decide_False|].
  case_decide; auto.
Qed.

Lemma dict_set_same d k v : dict_get d k = Some v → dict_set d k v = d.
Proof.
  induction d as [|[k0 v0] d IH]; simpl; [done|].
  case_decide; intros ?; simplify_eq; [done|]. by rewrite IH.
Qed.

Lemma elem_of_keys_set d k k' v : k' ∈ keys (dict_set d k v) ↔ k' = k ∨ k' ∈ keys d.
Proof.
  unfold keys. induction d as [|[k0 v0] d IH]; simpl.
  - rewrite list_elem_of_singleton, elem_of_nil. tauto.
  - case_decide; simpl; subst; rewrite !elem_of_cons; [|rewrite IH]; naive_solver.
Qed.

Lemma dict_wf_set d k v : dict_wf d → dict_wf (dict_set d k v).
Proof.
  unfold dict_wf, keys. induction d as [|[k0 v0] d IH]; simpl.
  - intros _. apply NoDup_singleton.
  - rewrite NoDup_cons. intros [Hk0 Hd].
    case_decide; simpl; subst; apply NoDup_cons; split; auto.
    intros [?|?]%elem_of_keys_set; done.
Qed.

Lemma dict_get_del_ne d k k' : k ≠ k' → dict_get (dict_del d k) k' = dict_get d k'.
Proof.
  intros Hne. induction d as [|[k0 v0] d IH]; simpl; [done|].
  case_decide; simpl; subst; [by rewrite decide_False|].
  case_decide; auto.
Qed.

Lemma dict_get_del_eq d k : dict_wf d → dict_get (dict_del d k) k = None.
Proof.
  unfold dict_wf, keys. induction d as [|[k0 v0] d IH]; simpl; [done|].
  rewrite NoDup_cons. intros [Hk0 Hd].
  case_decide; simpl; subst; [by apply dict_get_None_keys|].
  rewrite decide_False by done. auto.
Qed.

Lemma elem_of_keys_del d k k' : k' ∈ keys (dict_del d k) → k' ∈ keys d.
Proof.
  unfold keys. induction d as [|[k0 v0] d IH]; simpl; [done|].
  case_decide; simpl; rewrite ?elem_of_cons; naive_solver.
Qed.

Lemma dict_wf_del d k : dict_wf d → dict_wf (dict_del d k).
Proof.
  unfold dict_wf, keys. induction d as [|[k0 v0] d IH]; simpl; [done|].
  rewrite NoDup_cons. intros [Hk0 Hd].
  case_decide; simpl; [done|]. apply NoDup_cons; split; auto.
  intros ?%elem_of_keys_del; done.
Qed.

(** Deleting a key that is absent changes nothing. *)
Lemma dict_del_absent d k : dict_get d k = None → dict_del d k = d.
Proof.
  induction d as [|[k0 v0] d IH]; simpl; [done|].
  case_decide; [done|]. intros ?. by rewrite IH.
Qed.

End dict_facts.

(** ** phone-detector.py: the two loops of [analyze_network_changes] *)

Section analyze_facts.
Import PhoneDetector.
Implicit Types (known current : dict network) (k : string) (evs : list event).

Lemma check_new_or_stronger_eq known evs item :
  check_new_or_stronger (known, evs) item =
    (dict_set known item.1 (merged known item),
     evs ++ option_list (announced known item)).
Proof.
  destruct item as [k d]. unfold check_new_or_stronger, merged, announced; simpl.
  destruct (dict_get known k) as [old|]; [|done].
  case_bool_decide; simpl; [done | by rewrite app_nil_r].
Qed.

Lemma announced_set_ne known k v item :
  k ≠ item.1 → announced (dict_set known k v) item = announced known item.
Proof. intros Hne. unfold announced. by rewrite dict_get_set_ne. Qed.

Lemma merged_set_ne known k v item :
  k ≠ item.1 → merged (dict_set known k v) item = merged known item.
Proof. intros Hne. unfold merged. by rewrite dict_get_set_ne. Qed.

(** The announcements of the first loop are decided by the state the
    loop starts from: no key is visited twice. *)
Lemma first_loop_events current : ∀ known evs,
  dict_wf current →
  (foldl check_new_or_stronger (known, evs) current).2
  = evs ++ omap (announced known) current.
Proof.
  induction current as [|[k d] current IH]; intros known evs Hwf; cbn [foldl].
  { by rewrite app_nil_r. }
  apply dict_wf_cons in Hwf as [Hk Hwf].
  rewrite check_new_or_stronger_eq, IH by done. simpl.
  rewrite <-(assoc_L (++)). f_equal.
  destruct (announced known (k, d)) as [e|] eqn:He; simpl; [f_equal|];
    apply list_omap_ext, Forall2_same_length_lookup_2; try done;
    intros i x y Hx Hy; simplify_eq; apply announced_set_ne; simpl;
    intros ->; apply Hk, list_elem_of_fmap; exists x;
    eauto using list_elem_of_lookup_2.
Qed.

Lemma first_loop_get current : ∀ known evs k,
  dict_wf current →
  dict_get (foldl check_new_or_stronger (known, evs) current).1 k
  = match dict_get current k with
    | Some d => Some (merged known (k, d))
    | None => dict_get known k
    end.
Proof.
  induction current as [|[k0 d0] current IH]; intros known evs k Hwf; cbn [foldl].
  { done. }
  apply dict_wf_cons in Hwf as [Hk Hwf].
  rewrite check_new_or_stronger_eq, IH by done. simpl.
  case_decide as Hkk; subst.
  - apply dict_get_None_keys in Hk. rewrite Hk. apply dict_get_set_eq.
  - destruct (dict_get current k) as [d|].
    + f_equal. by apply merged_set_ne.
    + by apply dict_get_set_ne.
Qed.

Lemma first_loop_wf current : ∀ known evs,
  dict_wf known → dict_wf (foldl check_new_or_stronger (known, evs) current).1.
Proof.
  induction current as [|[k0 d0] current IH]; intros known evs Hwf; cbn [foldl]; [done|].
  rewrite check_new_or_stronger_eq. by apply IH, dict_wf_set.
Qed.

(** The second loop deletes the keys that the scan does not have. *)
Lemma second_loop_eq current ks : ∀ known evs,
  foldl (check_disappeared current) (known, evs) ks
  = (foldl dict_del known (filter (λ k, dict_mem k current = false) ks),
     evs ++ (Disappeared <$> filter (λ k, dict_mem k current = false) ks)).
Proof.
  induction ks as [|k ks IH]; intros known evs; simpl.
  { by rewrite app_nil_r. }
  rewrite filter_cons. destruct (dict_mem k current) eqn:Hm.
  - rewrite decide_False by done. apply IH.
  - rewrite decide_True by done. rewrite IH. simpl.
    by rewrite <-(assoc_L (++)).
Qed.

Lemma foldl_del_wf ks : ∀ known, dict_wf known → dict_wf (foldl dict_del known ks).
Proof. induction ks; simpl; auto using dict_wf_del. Qed.

Lemma foldl_del_get ks : ∀ known k,
  dict_wf known →
  dict_get (foldl dict_del known ks) k
  = if decide (k ∈ ks) then None else dict_get known k.
Proof.
  induction ks as [|k0 ks IH]; intros known k Hwf; cbn [foldl].
  { rewrite decide_False; [done | apply not_elem_of_nil]. }
  rewrite IH by auto using dict_wf_del.
  destruct (decide (k = k0)) as [->|Hne].
  - rewrite dict_get_del_eq by done. rewrite (decide_True (P:=k0 ∈ k0 :: ks)) by left.
    by case_decide.
  - rewrite dict_get_del_ne by done.
    case_decide as H1; case_decide as H2; try done.
    + destruct H2. by right.
    + apply elem_of_cons in H2 as [?|?]; done.
Qed.

Lemma analyze_network_changes_eq known current :
  dict_wf current →
  analyze_network_changes known current
  = (foldl dict_del (foldl check_new_or_stronger (known, []) current).1
       (gone known current),
     omap (announced known) current ++ (Disappeared <$> gone known current)).
Proof.
  intros Hwf. unfold analyze_network_changes.
  destruct (foldl check_new_or_stronger (known, []) current) as [known1 evs1] eqn:E.
  cbn [fst]. rewrite second_loop_eq. unfold gone. rewrite E. cbn [fst].
  f_equal. f_equal.
  change evs1 with (known1, evs1).2. rewrite <-E.
  by rewrite first_loop_events.
Qed.

Lemma elem_of_gone known current k :
  dict_wf current →
  k ∈ gone known current ↔ dict_get current k = None ∧ is_Some (dict_get known k).
Proof.
  intros Hwf. unfold gone. rewrite list_elem_of_filter, dict_mem_false.
  split.
  - intros [Hc Hk]. split; [done|].
    destruct (dict_get known k) eqn:Hg; [eauto|].
    apply dict_get_None_keys in Hk; [done|].
    by rewrite first_loop_get, Hc.
  - intros [Hc [old Hk]]. split; [done|].
    eapply dict_get_Some_keys. by rewrite first_loop_get, Hc.
Qed.

Lemma NoDup_gone known current : dict_wf known → NoDup (gone known current).
Proof. intros Hwf. apply NoDup_filter. by apply first_loop_wf. Qed.

(** The state after the step, key by key. *)
Lemma updated_state_get known current k :
  dict_wf known → dict_wf current →
  dict_get (updated_state known current) k
  = (λ d, merged known (k, d)) <$> dict_get current k.
Proof.
  intros Hk Hc. unfold updated_state.
  rewrite analyze_network_changes_eq by done. cbn [fst].
  rewrite foldl_del_get by by apply first_loop_wf.
  rewrite first_loop_get by done.
  case_decide as Hg.
  - apply elem_of_gone in Hg as [-> _]; done.
  - destruct (dict_get current k) as [d|] eqn:Hd; [done|]. simpl.
    destruct (dict_get known k) eqn:Hkn; [|done].
    destruct Hg. apply elem_of_gone; eauto.
Qed.

Lemma updated_state_wf known current :
  dict_wf known → dict_wf current → dict_wf (updated_state known current).
Proof.
  intros Hk Hc. unfold updated_state.
  rewrite analyze_network_changes_eq by done. cbn [fst].
  by apply foldl_del_wf, first_loop_wf.
Qed.

Lemma events_of_app k evs1 evs2 :
  events_of k (evs1 ++ evs2) = events_of k evs1 ++ events_of k evs2.
Proof. apply filter_app. Qed.

Lemma event_id_announced known item e :
  announced known item = Some e → event_id e = item.1.
Proof.
  unfold announced. destruct (dict_get known item.1); [case_bool_decide|];
    intros ?; by simplify_eq.
Qed.

Lemma events_of_announced known current k :
  dict_wf current →
  events_of k (omap (announced known) current)
  = match dict_get current k with
    | Some d => option_list (announced known (k, d))
    | None => []
    end.
Proof.
  unfold events_of.
  induction current as [|[k0 d0] current IH]; intros Hwf; [done|].
  apply dict_wf_cons in Hwf as [Hk0 Hwf]. cbn [omap list_omap dict_get].
  case_decide as Hkk; subst.
  - apply dict_get_None_keys in Hk0.
    specialize (IH Hwf). rewrite Hk0 in IH.
    destruct (announced known (k, d0)) as [e|] eqn:He; cbn [option_list]; [|done].
    rewrite filter_cons_True by by apply event_id_announced in He.
    by rewrite IH.
  - destruct (announced known (k0, d0)) as [e|] eqn:He; [|by apply IH].
    rewrite filter_cons_False; [by apply IH|].
    apply event_id_announced in He. simpl in He. congruence.
Qed.

Lemma events_of_disappeared ks k :
  NoDup ks →
  events_of k (Disappeared <$> ks) = if decide (k ∈ ks) then [Disappeared k] else [].
Proof.
  unfold events_of. induction ks as [|k0 ks IH]; intros Hnd.
  { by rewrite decide_False by apply not_elem_of_nil. }
  apply NoDup_cons in Hnd as [Hk0 Hnd]. rewrite fmap_cons.
  destruct (decide (k0 = k)) as [->|Hne].
  - rewrite filter_cons_True by done. rewrite IH by done.
    rewrite decide_False by done. rewrite decide_True by left. done.
  - rewrite filter_cons_False by done. rewrite IH by done.
    case_decide as H1; case_decide as H2; try done.
    + destruct H2. by right.
    + apply elem_of_cons in H2 as [?|?]; done.
Qed.

(** The announcements that concern one key. *)
Lemma events_of_diff known current k :
  dict_wf known → dict_wf current →
  events_of k (diff known current)
  = match dict_get known k, dict_get current k with
    | None, Some d => [Appeared k (signal d)]
    | Some old, Some d =>
        if bool_decide (signal d > signal old + signal_jump)
        then [StrengthenedSignificantly k (signal old) (signal d)]
        else []
    | Some old, None => [Disappeared k]
    | None, None => []
    end.
Proof.
  intros Hk Hc. unfold diff.
  rewrite analyze_network_changes_eq by done. cbn [snd].
  rewrite events_of_app.
  rewrite events_of_announced, events_of_disappeared by auto using NoDup_gone.
  case_decide as Hg.
  - apply elem_of_gone in Hg as [-> [old ->]]; done.
  - rewrite app_nil_r. unfold announced. cbn [fst snd].
    destruct (dict_get current k) as [d|] eqn:Hd.
    + destruct (dict_get known k); [by case_bool_decide | done].
    + destruct (dict_get known k) eqn:Hkn; [|done].
      destruct Hg. apply elem_of_gone; eauto.
Qed.

Lemma elem_of_diff known current e :
  e ∈ diff known current ↔ e ∈ events_of (event_id e) (diff known current).
Proof. unfold events_of. rewrite list_elem_of_filter. tauto. Qed.

Lemma keys_updated_state known current k :
  dict_wf known → dict_wf current →
  k ∈ keys (updated_state known current) ↔ k ∈ keys current.
Proof.
  intros Hk Hc. rewrite <-!dict_mem_keys. unfold dict_mem.
  rewrite !bool_decide_eq_true, updated_state_get by done.
  apply fmap_is_Some.
Qed.

Lemma set_signal_same (d : network) s : signal d = s → set_signal d s = d.
Proof. intros <-. by destruct d. Qed.

Lemma signal_merged known item : signal (merged known item) = signal item.2.
Proof. unfold merged. by destruct (dict_get known item.1). Qed.

(** A scan that brings nothing new leaves the first loop without effect. *)
Lemma first_loop_fixed current : ∀ known evs,
  (∀ k d, (k, d) ∈ current →
     ∃ old, dict_get known k = Some old ∧ signal old = signal d) →
  foldl check_new_or_stronger (known, evs) current = (known, evs).
Proof.
  induction current as [|[k d] current IH]; intros known evs Hall; [done|].
  cbn [foldl]. destruct (Hall k d) as (old & Hold & Hsig); [left|].
  assert (check_new_or_stronger (known, evs) (k, d) = (known, evs)) as ->.
  { unfold check_new_or_stronger. rewrite Hold. cbn zeta.
    rewrite set_signal_same by done. rewrite dict_set_same by done.
    rewrite bool_decide_eq_false_2; [done|]. unfold signal_jump. lia. }
  apply IH. intros k' d' Hin. apply Hall. by right.
Qed.

Lemma dict_get_elem_of {V} (d : dict V) k v :
  dict_wf d → (k, v) ∈ d → dict_get d k = Some v.
Proof.
  induction d as [|[k0 v0] d IH]; intros Hwf Hin.
  { by apply elem_of_nil in Hin. }
  apply dict_wf_cons in Hwf as [Hk0 Hwf]. simpl.
  apply elem_of_cons in Hin as [?|Hin]; simplify_eq.
  - by rewrite decide_True.
  - rewrite decide_False; [auto|]. intros ->. apply Hk0.
    apply list_elem_of_fmap. by exists (k, v).
Qed.

Lemma filter_none {A} (P : A → Prop) `{!∀ x, Decision (P x)} (l : list A) :
  (∀ x, x ∈ l → ¬ P x) → filter P l = [].
Proof.
  induction l as [|x l IH]; intros Hall; [done|].
  rewrite filter_cons_False by (apply Hall; left).
  apply IH. intros y Hy. apply Hall. by right.
Qed.

Lemma filter_all {A} (P : A → Prop) `{!∀ x, Decision (P x)} (l : list A) :
  (∀ x, x ∈ l → P x) → filter P l = l.
Proof.
  induction l as [|x l IH]; intros Hall; [done|].
  rewrite filter_cons_True by (apply Hall; left).
  f_equal. apply IH. intros y Hy. apply Hall. by right.
Qed.

(** When the known state already lists the scan, signal for signal, the
    step changes nothing and announces nothing. *)
Lemma analyze_fixed known current :
  (∀ k d, (k, d) ∈ current →
     ∃ old, dict_get known k = Some old ∧ signal old = signal d) →
  (∀ k, k ∈ keys known → k ∈ keys current) →
  analyze_network_changes known current = (known, []).
Proof.
  intros Hall Hsub. unfold analyze_network_changes.
  rewrite first_loop_fixed by done. cbn [fst].
  rewrite second_loop_eq. rewrite filter_none; [done|].
  intros k Hk%Hsub%dict_mem_keys. congruence.
Qed.

(** With an empty scan the second loop empties the state. *)
Lemma foldl_del_keys {V} (d : dict V) : foldl dict_del d (keys d) = [].
Proof.
  induction d as [|[k v] d IH]; [done|].
  cbn [keys fmap list_fmap foldl fst dict_del]. by rewrite decide_True.
Qed.

Lemma analyze_empty_scan known :
  analyze_network_changes known [] = ([], Disappeared <$> keys known).
Proof.
  unfold analyze_network_changes. cbn [foldl fst]. rewrite second_loop_eq.
  rewrite filter_all by done. by rewrite foldl_del_keys.
Qed.












Lemma analyze_again known current :
  dict_wf known → dict_wf current →
  analyze_network_changes (updated_state known current) current
  = (updated_state known current, []).
Proof.
  intros Hk Hc. apply analyze_fixed.
  - intros k d Hin. apply dict_get_elem_of in Hin; [|done].
    rewrite updated_state_get, Hin by done. eexists. split; [done|].
    by rewrite signal_merged.
  - intros k. by rewrite keys_updated_state.
Qed.
End analyze_facts.

(** ** phone-detector.py: the step on objects and the step on values *)

Section objects_facts.
Import PhoneDetector.
Implicit Types (h : heap) (known current d : dict loc) (k : string) (l : loc).

Lemma keys_contents h d : keys (contents h d) = keys d.
Proof.
  unfold keys, contents. rewrite <-list_fmap_compose. by apply list_fmap_ext.
Qed.

Lemma dict_get_contents h d k : dict_get (contents h d) k = h <$> dict_get d k.
Proof.
  induction d as [|[k0 l0] d IH]; [done|]. cbn [contents fmap list_fmap dict_get fst snd].
  case_decide; [done | apply IH].
Qed.

Lemma dict_mem_contents h d k : dict_mem k (contents h d) = dict_mem k d.
Proof.
  unfold dict_mem. rewrite dict_get_contents. apply bool_decide_ext.
  apply fmap_is_Some.
Qed.

Lemma contents_set h d k l :
  contents h (dict_set d k l) = dict_set (contents h d) k (h l).
Proof.
  induction d as [|[k0 l0] d IH]; [done|].
  cbn [contents fmap list_fmap dict_set fst snd].
  case_decide; cbn [fmap list_fmap fst snd]; [done|]. f_equal. apply IH.
Qed.

Lemma contents_del h d k : contents h (dict_del d k) = dict_del (contents h d) k.
Proof.
  induction d as [|[k0 l0] d IH]; [done|].
  cbn [contents fmap list_fmap dict_del fst snd].
  case_decide; cbn [fmap list_fmap fst snd]; [done|]. f_equal. apply IH.
Qed.

Lemma contents_ext h h' d :
  (∀ k l, dict_get d k = Some l → h' l = h l) → dict_wf d →
  contents h' d = contents h d.
Proof.
  intros Hext Hwf. apply list_fmap_ext. intros i [k l] Hi%list_elem_of_lookup_2.
  cbn [fst snd]. f_equal. apply (Hext k). by apply dict_get_elem_of.
Qed.

Lemma dict_get_values {V} (d' : dict V) k (v : V) : dict_get d' k = Some v → v ∈ d'.*2.
Proof.
  induction d' as [|[k0 v0] d' IH]; [done|]. cbn [dict_get fmap list_fmap snd].
  case_decide; intros ?; simplify_eq; [left | right; auto].
Qed.

Lemma heap_set_signal_other h l s d :
  l ∉ d.*2 → contents (heap_set_signal h l s) d = contents h d.
Proof.
  intros Hl. apply list_fmap_ext. intros i [k0 l0] Hi%list_elem_of_lookup_2.
  cbn [fst snd]. f_equal. unfold heap_set_signal.
  rewrite decide_False; [done|]. intros ->. apply Hl.
  apply list_elem_of_fmap. by exists (k0, l0).
Qed.

(** Writing into the object of one key is an assignment to that key. *)
Lemma contents_heap_set_signal h d k l s :
  NoDup d.*2 → dict_get d k = Some l →
  contents (heap_set_signal h l s) d = dict_set (contents h d) k (set_signal (h l) s).
Proof.
  induction d as [|[k0 l0] d IH]; [done|].
  cbn [fmap list_fmap snd]. rewrite NoDup_cons. intros [Hl0 Hnd].
  cbn [contents fmap list_fmap dict_get dict_set fst snd].
  case_decide as Hk; intros Hget; simplify_eq.
  - fold (contents (heap_set_signal h l s) d) (contents h d).
    rewrite heap_set_signal_other by done.
    unfold heap_set_signal at 1. by rewrite decide_True.
  - fold (contents (heap_set_signal h l s) d) (contents h d).
    rewrite IH by done. unfold heap_set_signal at 1.
    rewrite decide_False; [done|]. intros ->. apply Hl0. by eapply dict_get_values.
Qed.

Lemma dict_set_new {V} (d' : dict V) k (v : V) :
  dict_get d' k = None → dict_set d' k v = d' ++ [(k, v)].
Proof.
  induction d' as [|[k0 v0] d' IH]; [done|]. cbn [dict_get dict_set].
  case_decide; [done|]. intros ?. cbn [app]. f_equal. auto.
Qed.

Lemma dict_get_of_value {V} (d' : dict V) (v : V) :
  dict_wf d' → v ∈ d'.*2 → ∃ k, dict_get d' k = Some v.
Proof.
  intros Hwf ([k v'] & -> & Hin)%list_elem_of_fmap. exists k.
  by apply dict_get_elem_of.
Qed.

Lemma dict_get_inj d k k' l :
  NoDup d.*2 → dict_get d k = Some l → dict_get d k' = Some l → k = k'.
Proof.
  induction d as [|[k0 l0] d IH]; [done|].
  cbn [fmap list_fmap snd dict_get]. rewrite NoDup_cons. intros [Hl0 Hnd].
  repeat case_decide; intros ??; simplify_eq; try done.
  - destruct Hl0. by eapply dict_get_values.
  - destruct Hl0. by eapply dict_get_values.
  - eauto.
Qed.

(** One turn of the first loop, on objects and on values. *)
Lemma check_new_or_stronger_agree h known current evs k l :
  dict_wf known → dict_wf current → separated known current →
  dict_get current k = Some l →
  ∃ h' known',
    check_new_or_stronger_obj (h, known, evs) (k, l)
    = (h', known', (check_new_or_stronger (contents h known, evs) (k, h l)).2) ∧
    (check_new_or_stronger (contents h known, evs) (k, h l)).1 = contents h' known' ∧
    (∀ k' l', dict_get current k' = Some l' → h' l' = h l') ∧
    dict_wf known' ∧ separated known' current.
Proof.
  intros Hk Hc (Hnk & Hnc & Hsep) Hl.
  unfold check_new_or_stronger_obj, check_new_or_stronger.
  rewrite dict_get_contents.
  destruct (dict_get known k) as [lo|] eqn:Hlo; cbn [fmap option_fmap option_map].
  - exists (heap_set_signal h lo (signal (h l))), known.
    split; [done|]. split; [|split; [|done]].
    + cbn [fst]. by rewrite (contents_heap_set_signal _ _ k).
    + intros k' l' Hl'. unfold heap_set_signal. case_decide as Heq; [|done]. subst l'.
      assert (k = k') as <- by eauto. assert (lo = l) as -> by congruence.
      by apply set_signal_same.
  - exists h, (dict_set known k l). split; [done|].
    split; [by rewrite contents_set|]. split; [done|].
    split; [by apply dict_wf_set|].
    split; [|split; [done|]].
    + rewrite dict_set_new by done. rewrite fmap_app. apply NoDup_app.
      split; [done|]. split; [|apply NoDup_singleton].
      intros l0 Hl0 ->%list_elem_of_singleton.
      apply dict_get_of_value in Hl0 as [k0 Hk0]; [|done].
      assert (k0 = k) as -> by eauto. congruence.
    + intros k1 k' l1 Hg1 Hg'. destruct (decide (k = k1)) as [<-|Hne].
      * rewrite dict_get_set_eq in Hg1. simplify_eq. by eapply dict_get_inj.
      * rewrite dict_get_set_ne in Hg1 by done. eauto.
Qed.

Lemma first_loop_agree current rest : ∀ h known evs,
  dict_wf known → dict_wf current → separated known current →
  (∀ k l, (k, l) ∈ rest → dict_get current k = Some l) →
  ∃ h' known',
    foldl check_new_or_stronger_obj (h, known, evs) rest
    = (h', known',
       (foldl check_new_or_stronger (contents h known, evs) (contents h rest)).2) ∧
    (foldl check_new_or_stronger (contents h known, evs) (contents h rest)).1
    = contents h' known' ∧
    (∀ k' l', dict_get current k' = Some l' → h' l' = h l') ∧
    dict_wf known' ∧ separated known' current.
Proof.
  induction rest as [|[k l] rest IH]; intros h known evs Hk Hc Hsep Hin.
  { exists h, known. done. }
  cbn [contents fmap list_fmap foldl fst snd].
  destruct (check_new_or_stronger_agree h known current evs k l)
    as (h1 & known1 & -> & Hv1 & Hh1 & Hk1 & Hsep1); [done..|apply Hin; left|].
  destruct (check_new_or_stronger (contents h known, evs) (k, h l)) as [v1 evs1].
  cbn [fst snd] in *. subst v1.
  destruct (IH h1 known1 evs1) as (h2 & known2 & -> & Hv2 & Hh2 & Hk2 & Hsep2);
    [done.. | intros; apply Hin; by right |].
  assert (contents h1 rest = contents h rest) as Hrest.
  { apply list_fmap_ext. intros i [k' l'] Hi%list_elem_of_lookup_2. cbn [fst snd].
    f_equal. apply (Hh1 k'). apply Hin. by right. }
  fold (contents h rest). rewrite <-Hrest.
  exists h2, known2. split; [done|]. split; [done|]. split; [|done].
  intros k' l' Hl'. rewrite (Hh2 k' l') by done. eauto.
Qed.

Lemma second_loop_agree h current ks : ∀ known evs,
  foldl (check_disappeared_obj current) (h, known, evs) ks
  = (h, foldl dict_del known (filter (λ k, dict_mem k current = false) ks),
     (foldl (check_disappeared (contents h current)) (contents h known, evs) ks).2) ∧
  (foldl (check_disappeared (contents h current)) (contents h known, evs) ks).1
  = contents h (foldl dict_del known (filter (λ k, dict_mem k current = false) ks)).
Proof.
  induction ks as [|k ks IH]; intros known evs; [done|].
  cbn [foldl]. unfold check_disappeared_obj at 2, check_disappeared at 2 4.
  rewrite dict_mem_contents, filter_cons. destruct (dict_mem k current) eqn:Hm.
  - rewrite decide_False by done. apply IH.
  - rewrite decide_True by done. cbn [foldl]. rewrite <-contents_del. apply IH.
Qed.

Lemma separated_del known current ks :
  dict_wf known → separated known current →
  dict_wf (foldl dict_del known ks) ∧ separated (foldl dict_del known ks) current.
Proof.
  revert known. induction ks as [|k ks IH]; intros known Hk Hsep; [done|].
  cbn [foldl]. apply IH; [by apply dict_wf_del|].
  destruct Hsep as (Hnk & Hnc & Hsep). split; [|split; [done|]].
  - clear -Hnk. induction known as [|[k0 l0] known IH]; [done|].
    cbn [fmap list_fmap snd] in Hnk. apply NoDup_cons in Hnk as [Hl0 Hnk].
    cbn [dict_del]. case_decide; [done|]. cbn [fmap list_fmap snd].
    apply NoDup_cons. split; [|auto]. intros Hin. apply Hl0.
    clear -Hin. induction known as [|[k1 l1] known IH]; [done|].
    cbn [dict_del] in Hin. case_decide; cbn [fmap list_fmap snd] in *.
    + by right.
    + apply elem_of_cons in Hin as [->|Hin]; [left | right; auto].
  - intros k1 k' l Hg1 Hg'. destruct (decide (k = k1)) as [<-|Hne].
    + by rewrite dict_get_del_eq in Hg1.
    + rewrite dict_get_del_ne in Hg1 by done. eauto.
Qed.

(** The step on objects does to the contents what the step on values
    does, leaves the contents of the scan as they are, and leaves the known
    state and the scan separated as before, so that this holds again when
    the next scan is new or the same. *)
Theorem analyze_objects_agree h known current :
  dict_wf known → dict_wf current → separated known current →
  ∃ h' known',
    analyze_network_changes_obj h known current
    = (h', known', diff (contents h known) (contents h current)) ∧
    contents h' known' = updated_state (contents h known) (contents h current) ∧
    contents h' current = contents h current ∧
    dict_wf known' ∧ separated known' current.
Proof.
  intros Hk Hc Hsep.
  destruct (first_loop_agree current current h known []) as
    (h1 & known1 & E1 & Hv1 & Hh1 & Hk1 & Hsep1);
    [done.. | intros; by apply dict_get_elem_of |].
  unfold analyze_network_changes_obj, diff, updated_state, analyze_network_changes.
  rewrite E1. cbn [fst snd].
  destruct (foldl check_new_or_stronger (contents h known, []) (contents h current))
    as [v1 evs1]. cbn [fst snd] in *. subst v1.
  assert (contents h1 current = contents h current) as Hcur by by apply contents_ext.
  destruct (second_loop_agree h1 current (keys known1) known1 evs1) as [-> Hv2].
  rewrite keys_contents, <-Hcur.
  destruct (foldl (check_disappeared (contents h1 current)) (contents h1 known1, evs1)
              (keys known1)) as [v2 evs2].
  cbn [fst snd] in *. subst v2.
  eexists _, _. split; [done|]. split; [done|]. split; [done|].
  by apply separated_del.
Qed.

Lemma dict_wf_contents h d : dict_wf (contents h d) ↔ dict_wf d.
Proof. unfold dict_wf. by rewrite keys_contents. Qed.

(** Handing the same scan, the same objects, to the step a second time
    changes no contents and announces nothing. *)
Theorem analyze_objects_twice h known current :
  dict_wf known → dict_wf current → separated known current →
  ∃ h1 known1 h2 known2,
    analyze_network_changes_obj h known current
    = (h1, known1, diff (contents h known) (contents h current)) ∧
    analyze_network_changes_obj h1 known1 current = (h2, known2, []) ∧
    contents h2 known2 = contents h1 known1.
Proof.
  intros Hk Hc Hsep.
  destruct (analyze_objects_agree h known current)
    as (h1 & known1 & E1 & Hv1 & Hc1 & Hk1 & Hsep1); [done..|].
  destruct (analyze_objects_agree h1 known1 current)
    as (h2 & known2 & E2 & Hv2 & _); [done..|].
  exists h1, known1, h2, known2. split; [done|].
  pose proof (analyze_again (contents h known) (contents h current)) as Hagain.
  rewrite Hc1, Hv1 in E2, Hv2. unfold diff, updated_state in E2, Hv2 |- *.
  unfold updated_state in Hv1, Hagain.
  rewrite Hagain in E2, Hv2 by by apply dict_wf_contents.
  split; [done|]. by rewrite Hv1.
Qed.
End objects_facts.

(** ** phone-detector.py: the diff step *)

Section diff_properties.
Import PhoneDetector.
Implicit Types (previous current : dict network) (k : string).

(** Closed side conditions (no key twice in a given dictionary). *)
Local Ltac by_evaluation := apply (bool_decide_unpack _); vm_compute; exact I.

(** C1. For every known state and every scan, the diff step makes exactly
    one [Appeared] announcement for a key that the scan has and the known
    state has not, exactly one [Disappeared] announcement for a key that the
    known state has and the scan has not, exactly one
    [StrengthenedSignificantly] announcement for a key of both whose signal
    rose by more than the threshold, and none for any other key: never more
    than one announcement for a key. *)
Theorem diff_one_event_per_identifier previous current k :
  dict_wf previous → dict_wf current →
  (∀ d, dict_get previous k = None → dict_get current k = Some d →
     events_of k (diff previous current) = [Appeared k (signal d)]) ∧
  (∀ old, dict_get previous k = Some old → dict_get current k = None →
     events_of k (diff previous current) = [Disappeared k]) ∧
  (∀ old d, dict_get previous k = Some old → dict_get current k = Some d →
     signal d > signal old + signal_jump →
     events_of k (diff previous current)
     = [StrengthenedSignificantly k (signal old) (signal d)]) ∧
  (∀ old d, dict_get previous k = Some old → dict_get current k = Some d →
     signal d ≤ signal old + signal_jump →
     events_of k (diff previous current) = []) ∧
  (dict_get previous k = None → dict_get current k = None →
     events_of k (diff previous current) = []) ∧
  (length (events_of k (diff previous current)) ≤ 1)%nat.
Proof.
  intros Hp Hc. rewrite events_of_diff by done.
  repeat split.
  - by intros d -> ->.
  - by intros old -> ->.
  - intros old d -> -> Hgt. by rewrite bool_decide_eq_true_2.
  - intros old d -> -> Hle. rewrite bool_decide_eq_false_2; [done | lia].
  - by intros -> ->.
  - destruct (dict_get previous k), (dict_get current k);
      try case_bool_decide; simpl; lia.
Qed.

Lemma diff_one_event_per_identifier_witness :
  let previous := [("AA:1", {| signal := 45; first_seen := 0 |});
                   ("B", {| signal := 3; first_seen := 1 |})] in
  let current := [("C", {| signal := 61; first_seen := 7 |});
                  ("B", {| signal := 24; first_seen := 8 |})] in
  dict_wf previous ∧ dict_wf current ∧
  events_of "B" (diff previous current) = [StrengthenedSignificantly "B" 3 24] ∧
  events_of "C" (diff previous current) = [Appeared "C" 61] ∧
  events_of "AA:1" (diff previous current) = [Disappeared "AA:1"].
Proof.
  intros previous current.
  assert (dict_wf previous) as Hp by by_evaluation.
  assert (dict_wf current) as Hc by by_evaluation.
  split; [done|]. split; [done|]. split; [|split].
  - destruct (diff_one_event_per_identifier previous current "B" Hp Hc)
      as (_ & _ & H & _).
    apply (H {| signal := 3; first_seen := 1 |} {| signal := 24; first_seen := 8 |});
      [reflexivity | reflexivity | unfold signal_jump; simpl; lia].
  - destruct (diff_one_event_per_identifier previous current "C" Hp Hc)
      as (H & _).
    apply (H {| signal := 61; first_seen := 7 |}); reflexivity.
  - destruct (diff_one_event_per_identifier previous current "AA:1" Hp Hc)
      as (_ & H & _).
    apply (H {| signal := 45; first_seen := 0 |}); reflexivity.
Defined.

(** C2. For a key of both the known state and the scan, a rise of exactly
    the threshold (20) makes no [StrengthenedSignificantly] announcement
    and a rise of the threshold plus one (21) makes one: the comparison is
    the strict [new_signal > old_signal + 20]. *)
Theorem signal_jump_boundary previous current k old d :
  dict_wf previous → dict_wf current →
  dict_get previous k = Some old → dict_get current k = Some d →
  signal_jump = 20 ∧
  (signal d = signal old + 20 → events_of k (diff previous current) = []) ∧
  (signal d = signal old + 21 →
     events_of k (diff previous current)
     = [StrengthenedSignificantly k (signal old) (signal d)]) ∧
  ((∃ o n, StrengthenedSignificantly k o n ∈ diff previous current)
   ↔ signal d > signal old + 20).
Proof.
  intros Hp Hc Hold Hd.
  pose proof (events_of_diff previous current k Hp Hc) as Hev.
  rewrite Hold, Hd in Hev. unfold signal_jump in Hev.
  split; [done|]. repeat split.
  - intros Heq. rewrite Hev, bool_decide_eq_false_2; [done | lia].
  - intros Heq. rewrite Hev, bool_decide_eq_true_2; [done | lia].
  - intros (o & n & Hin). apply elem_of_diff in Hin. cbn [event_id] in Hin.
    rewrite Hev in Hin. case_bool_decide; [done|]. by apply elem_of_nil in Hin.
  - intros Hgt. exists (signal old), (signal d).
    apply elem_of_diff. cbn [event_id].
    rewrite Hev, bool_decide_eq_true_2 by done. left.
Qed.

Lemma signal_jump_boundary_witness :
  let old := {| signal := 45; first_seen := 0 |} in
  let at_threshold := {| signal := 65; first_seen := 9 |} in
  let above := {| signal := 66; first_seen := 9 |} in
  events_of "AA:1" (diff [("AA:1", old)] [("AA:1", at_threshold)]) = [] ∧
  events_of "AA:1" (diff [("AA:1", old)] [("AA:1", above)])
  = [StrengthenedSignificantly "AA:1" 45 66].
Proof.
  intros old at_threshold above.
  assert (∀ n : network, dict_wf [("AA:1", n)]) as Hwf.
  { intros n. apply dict_wf_cons. split; [apply not_elem_of_nil | constructor]. }
  split.
  - destruct (signal_jump_boundary [("AA:1", old)] [("AA:1", at_threshold)]
                "AA:1" old at_threshold (Hwf _) (Hwf _) eq_refl eq_refl)
      as (_ & H & _).
    apply H. reflexivity.
  - destruct (signal_jump_boundary [("AA:1", old)] [("AA:1", above)]
                "AA:1" old above (Hwf _) (Hwf _) eq_refl eq_refl)
      as (_ & _ & H & _).
    apply H. reflexivity.
Defined.

(** C8. Applying the state update a second time with the same scan gives
    the state that one application gives. *)
Theorem updated_state_idempotent previous current :
  dict_wf previous → dict_wf current →
  updated_state (updated_state previous current) current
  = updated_state previous current.
Proof.
  intros Hp Hc. unfold updated_state at 1. by rewrite analyze_again.
Qed.

Lemma updated_state_idempotent_witness :
  let previous := [("AA:1", {| signal := 45; first_seen := 0 |});
                   ("B", {| signal := 3; first_seen := 1 |})] in
  let current := [("C", {| signal := 61; first_seen := 7 |});
                  ("B", {| signal := 24; first_seen := 8 |})] in
  dict_wf previous ∧ dict_wf current ∧
  updated_state (updated_state previous current) current
  = updated_state previous current.
Proof.
  intros previous current.
  assert (dict_wf previous) as Hp by by_evaluation.
  assert (dict_wf current) as Hc by by_evaluation.
  split; [done|]. split; [done|].
  apply (updated_state_idempotent previous current Hp Hc).
Defined.

End diff_properties.

(** ** wifi-monitor(1).py: one visit, one cycle *)

Section monitor_facts.
Import WifiMonitor.
Implicit Types (st : state) (network : profile) (out : list output).

Lemma truthy_Some_ne (x : option string) :
  truthy x = true ↔ ∃ n, x = Some n ∧ n ≠ "".
Proof.
  destruct x as [[|c n]|]; simpl; split; try done.
  - intros (n & [= <-] & Hn). done.
  - intros _. by eexists.
  - intros (n & [=] & _).
Qed.

Lemma py_truthy_ne (s : string) : Py.truthy s = true ↔ s ≠ "".
Proof. by destruct s. Qed.

(** [visit] only appends to the trace. *)
Lemma visit_eq world st out network :
  visit world (st, out) network
  = (visit_state world st network, out ++ visit_out world st network).
Proof.
  unfold visit_state, visit_out, visit.
  destruct (Py.truthy (ssid network)); cbn [negb fst snd].
  2: { by rewrite app_nil_r. }
  destruct (dict_get (known_networks st) (bssid network)) as [e|].
  - destruct (truthy (custom_name e)); cbn [fst snd]; [done | by rewrite app_nil_r].
  - destruct (prompt_for_name _ st _ _) as [name st'].
    destruct (truthy name); cbn [fst snd]; by rewrite ?app_nil_l, <-?(assoc_L (++)).
Qed.

Lemma monitor_cycle_foldl world results : ∀ st out,
  foldl (visit world) (st, out) results
  = ((foldl (visit world) (st, []) results).1,
     out ++ (foldl (visit world) (st, []) results).2).
Proof.
  induction results as [|network results IH]; intros st out; cbn [foldl].
  { by rewrite app_nil_r. }
  rewrite !visit_eq, app_nil_l.
  rewrite (IH _ (out ++ _)), (IH _ (visit_out _ _ _)). cbn [fst snd].
  by rewrite <-(assoc_L (++)).
Qed.

Lemma monitor_cycle_cons world st network results :
  monitor_cycle world st (ScanResults (network :: results))
  = ((monitor_cycle world (visit_state world st network) (ScanResults results)).1,
     visit_out world st network
       ++ (monitor_cycle world (visit_state world st network) (ScanResults results)).2).
Proof.
  unfold monitor_cycle. cbn [scan_networks foldl].
  rewrite visit_eq, app_nil_l. apply monitor_cycle_foldl.
Qed.

(** A network without a name is passed over. *)
Lemma visit_empty_ssid world acc network :
  ssid network = "" → visit world acc network = acc.
Proof. intros Hs. unfold visit. rewrite Hs. by destruct acc. Qed.



Lemma prompt_for_name_named inp st s b n :
  (prompt_for_name inp st s b).1 = Some n → n ≠ "" →
  typed inp = Entered n ∧
  known_networks (prompt_for_name inp st s b).2
  = dict_set (known_networks st) b {| known_ssid := Some s; custom_name := Some n |}.
Proof.
  unfold prompt_for_name. destruct (typed inp) as [e|e| |name]; [done..|].
  destruct (Py.truthy name) eqn:Hn.
  - destruct (db_insert _ _ _); [|done]. simpl. by intros [= ->] _.
  - simpl. intros [= ->] Hne. by destruct n.
Qed.

(** The cache after [prompt_for_name]: the old one, or the old one with
    the new key. *)
Lemma prompt_for_name_cache inp st s b :
  known_networks (prompt_for_name inp st s b).2 = known_networks st ∨
  ∃ n, n ≠ "" ∧ typed inp = Entered n ∧
       known_networks (prompt_for_name inp st s b).2
       = dict_set (known_networks st) b {| known_ssid := Some s; custom_name := Some n |}.
Proof.
  unfold prompt_for_name. destruct (typed inp) as [e|e| |name]; [by left..|].
  destruct (Py.truthy name) eqn:Hn; [|by left].
  destruct (db_insert _ _ _); [|by left].
  right. exists name. by apply py_truthy_ne in Hn.
Qed.

Lemma visit_state_cache world st network :
  known_networks (visit_state world st network) = known_networks st ∨
  (ssid network ≠ "" ∧ dict_get (known_networks st) (bssid network) = None ∧
   ∃ n, n ≠ "" ∧
     known_networks (visit_state world st network)
     = dict_set (known_networks st) (bssid network)
         {| known_ssid := Some (ssid network); custom_name := Some n |}).
Proof.
  unfold visit_state, visit.
  destruct (Py.truthy (ssid network)) eqn:Hs; cbn [negb]; [|by left].
  apply py_truthy_ne in Hs.
  destruct (dict_get (known_networks st) (bssid network)) as [e|] eqn:Hg.
  { destruct (truthy (custom_name e)); by left. }
  destruct (prompt_for_name_cache (world (prompts st)) st (ssid network) (bssid network))
    as [Heq|(n & Hn & _ & Heq)];
    destruct (prompt_for_name _ st _ _) as [name st'];
    destruct (truthy name); cbn [fst snd] in *; eauto 10.
Qed.

(** Entries of the cache stay as they are. *)
Lemma visit_state_keeps world st network k e :
  dict_get (known_networks st) k = Some e →
  dict_get (known_networks (visit_state world st network)) k = Some e.
Proof.
  intros Hk. destruct (visit_state_cache world st network)
    as [->|(_ & Hnone & n & _ & ->)]; [done|].
  rewrite dict_get_set_ne; [done|]. intros <-. congruence.
Qed.

Lemma monitor_cycle_keeps world results : ∀ st k e,
  dict_get (known_networks st) k = Some e →
  dict_get (known_networks (monitor_cycle world st (ScanResults results)).1) k = Some e.
Proof.
  induction results as [|network results IH]; intros st k e Hk; [done|].
  rewrite monitor_cycle_cons. cbn [fst].
  by apply IH, visit_state_keeps.
Qed.

(** Only scanned networks with a name enter the cache. *)
Lemma monitor_cycle_new_keys world results : ∀ st k,
  k ∈ keys (known_networks (monitor_cycle world st (ScanResults results)).1) →
  k ∈ keys (known_networks st) ∨
  ∃ network, network ∈ results ∧ bssid network = k ∧ ssid network ≠ "".
Proof.
  induction results as [|network results IH]; intros st k Hk; [by left|].
  rewrite monitor_cycle_cons in Hk. cbn [fst] in Hk.
  apply IH in Hk as [Hk|(n' & Hin & Hb & Hs)].
  - destruct (visit_state_cache world st network)
      as [Heq|(Hs & _ & n & _ & Heq)]; rewrite Heq in Hk; [by left|].
    apply elem_of_keys_set in Hk as [->|Hk]; [|by left].
    right. exists network. split; [left | done].
  - right. exists n'. split; [by right | done].
Qed.

Lemma monitor_cycle_wf world results : ∀ st,
  dict_wf (known_networks st) →
  dict_wf (known_networks (monitor_cycle world st (ScanResults results)).1).
Proof.
  induction results as [|network results IH]; intros st Hwf; [done|].
  rewrite monitor_cycle_cons. cbn [fst]. apply IH.
  destruct (visit_state_cache world st network)
    as [->|(_ & _ & n & _ & ->)]; [done | by apply dict_wf_set].
Qed.

Lemma monitor_cycle_failed world st e :
  monitor_cycle world st (ScanFailed e) = (st, []).
Proof. done. Qed.
End monitor_facts.

(** ** phone-detector.py: what [get_networks] reads *)

Section scan_facts.
Import PhoneDetector.

(** A line that names a network with an empty name is passed over. *)
Lemma parse_lines_empty_name clock i line rest networks current_ssid :
  names_network line = true → name_of line = "" →
  parse_lines clock i (line :: rest) networks current_ssid
  = parse_lines clock (S i) rest networks current_ssid.
Proof.
  unfold names_network, name_of. intros Hn He. cbn [parse_lines].
  by rewrite Hn, He.
Qed.

(** Every key of the scanned dictionary is the name given on a line that
    names a network, and is not empty. *)
Lemma parse_lines_keys clock lines : ∀ i networks current_ssid nets k,
  parse_lines clock i lines networks current_ssid = Ok nets →
  k ∈ keys nets →
  k ∈ keys networks ∨
  (k ≠ "" ∧ ∃ line, line ∈ lines ∧ names_network line = true ∧ k = name_of line).
Proof.
  induction lines as [|line lines IH]; intros i networks cur nets k Hp Hk.
  { cbn [parse_lines] in Hp. simplify_eq. by left. }
  cbn [parse_lines] in Hp. fold (names_network line) in Hp. fold (name_of line) in Hp.
  assert (∀ P : Prop, P ∨ (k ≠ "" ∧ ∃ l, l ∈ lines ∧ names_network l = true ∧ k = name_of l) →
          P ∨ (k ≠ "" ∧ ∃ l, l ∈ line :: lines ∧ names_network l = true ∧ k = name_of l))
    as Hweaken.
  { intros P [?|(? & l & ? & ? & ?)]; [by left | right]. split; [done|].
    exists l. split; [by right | done]. }
  destruct (names_network line) eqn:Hn.
  - destruct (Py.truthy (name_of line)) eqn:Ht.
    + destruct (IH _ _ _ _ _ Hp Hk) as [Hin|Hin]; [|by apply Hweaken; right].
      apply elem_of_keys_set in Hin as [->|Hin]; [|by left].
      right. split; [by destruct (name_of line)|].
      exists line. split; [left | done].
    + apply Hweaken. eauto.
  - destruct cur as [cur|]; [|by apply Hweaken; eauto].
    destruct (Py.contains "Signal" line); [|by apply Hweaken; eauto].
    destruct (Py.int _) as [sig|]; [|done].
    destruct (dict_get networks cur) as [d|] eqn:Hd; [|done].
    apply Hweaken. destruct (IH _ _ _ _ _ Hp Hk) as [Hin|Hin]; [|by right].
    left. apply elem_of_keys_set in Hin as [->|Hin]; [|done].
    by eapply dict_get_Some_keys.
Qed.

Lemma parse_lines_wf clock lines : ∀ i networks current_ssid nets,
  parse_lines clock i lines networks current_ssid = Ok nets →
  dict_wf networks → dict_wf nets.
Proof.
  induction lines as [|line lines IH]; intros i networks cur nets Hp Hwf.
  { cbn [parse_lines] in Hp. by simplify_eq. }
  cbn [parse_lines] in Hp.
  destruct (_ && _).
  - destruct (Py.truthy _); eauto using dict_wf_set.
  - destruct cur as [cur|]; [|eauto].
    destruct (Py.contains "Signal" line); [|eauto].
    destruct (Py.int _) as [sig|]; [|done].
    destruct (dict_get networks cur) as [d|]; [|done].
    eauto using dict_wf_set.
Qed.

Lemma get_networks_wf clock sc nets out :
  get_networks clock sc = (Ok nets, out) → dict_wf nets.
Proof.
  destruct sc as [text|e|e]; cbn [get_networks]; intros ?; simplify_eq.
  - eapply parse_lines_wf; [done | constructor].
  - constructor.
Qed.
End scan_facts.

(** ** wifi-monitor(1).py: declined prompts and known networks *)

Section monitor_cycle_facts.
Import WifiMonitor.
Implicit Types (st : state) (network : profile) (out : list output).

Lemma monitor_cycle_scan world st sc :
  monitor_cycle world st sc = monitor_cycle world st (ScanResults (scan_networks sc)).
Proof. by destruct sc. Qed.

Lemma monitor_cycle_app world results1 results2 st :
  monitor_cycle world st (ScanResults (results1 ++ results2))
  = let st1 := (monitor_cycle world st (ScanResults results1)).1 in
    ((monitor_cycle world st1 (ScanResults results2)).1,
     (monitor_cycle world st (ScanResults results1)).2
       ++ (monitor_cycle world st1 (ScanResults results2)).2).
Proof.
  unfold monitor_cycle. cbn [scan_networks]. rewrite foldl_app.
  destruct (foldl (visit world) (st, []) results1) as [st1 out1].
  cbn [fst snd]. apply monitor_cycle_foldl.
Qed.


(** The trace of a visit to a network that is in the cache under a name. *)
Lemma visit_out_known world st network e n :
  ssid network ≠ "" → dict_get (known_networks st) (bssid network) = Some e →
  custom_name e = Some n → n ≠ "" →
  visit_out world st network
  = [Print ("Detected known network: " +:+ n +:+ " (" +:+ ssid network +:+ ")");
     Say ("Detected " +:+ n)].
Proof.
  intros Hs%py_truthy_ne Hk Hn Hne%py_truthy_ne.
  unfold visit_out, visit. rewrite Hs, Hk, Hn. cbn [negb truthy default].
  by rewrite Hne.
Qed.




End monitor_cycle_facts.

(** ** The cycle of the phone detector *)

Section phone_detector_cycle.
Import PhoneDetector.
Implicit Types (previous current known : dict network) (k : string).

(** C4, as stated, fails: after a failed scan the cycle goes on with an
    empty dictionary, and the diff step then announces every known network
    as out of range and empties the known state. *)
Lemma failed_scan_advances_known_state :
  let known := [("Home", {| signal := 45; first_seen := 0 |})] in
  let result := cycle (λ _, 0) known (CalledProcessError "exit status 1") in
  result = ([], [Print "Error scanning networks: exit status 1";
                 Announce "Device Home moved out of range"], true) ∧
  result.1.1 ≠ known ∧
  Announce (message (Disappeared "Home")) ∈ result.1.2.
Proof.
  intros known result. split; [reflexivity|]. split; [done|].
  right. left.
Qed.

(** C4, amended. When the scan fails, [get_networks] prints the failure and
    gives an empty dictionary; the cycle does not raise and goes on to the
    diff step with it, which announces every known network as out of range
    and leaves the known state empty. (In the monitor with the database a
    failed scan gives an empty list, and the cycle changes and announces
    nothing.) *)
Theorem failed_scan_is_an_empty_scan clock known e world st :
  get_networks clock (CalledProcessError e)
  = (Ok [], [Print ("Error scanning networks: " +:+ e)]) ∧
  cycle clock known (CalledProcessError e)
  = ([],
     Print ("Error scanning networks: " +:+ e)
       :: ((λ k, Announce ("Device " +:+ k +:+ " moved out of range")) <$> keys known),
     true) ∧
  WifiMonitor.monitor_cycle world st (WifiMonitor.ScanFailed e) = (st, []).
Proof.
  split; [done|]. split; [|done]. unfold cycle. cbn [get_networks].
  rewrite analyze_empty_scan. cbn [app]. do 2 f_equal.
  by rewrite <-list_fmap_compose.
Qed.




(** The step with a speech engine that raises in its second announcement:
    the first network is announced and stored, the second is announced
    without being stored, the third is not reached. *)
Example analyze_raises_in_second_announcement :
  analyze_network_changes_io (λ n, bool_decide (n ≠ 1%nat)) []
    [("Home", {| signal := 45; first_seen := 3 |});
     ("Cafe", {| signal := 70; first_seen := 3 |});
     ("Shop", {| signal := 20; first_seen := 3 |})]
  = Raised [("Home", {| signal := 45; first_seen := 3 |})]
      [Appeared "Home" 45] (Appeared "Cafe" 70).
Proof. reflexivity. Qed.

(** The step on three small inputs: a new network, a network that comes
    closer, a network that is gone. *)
Example analyze_new_network :
  analyze_network_changes [] [("Home", {| signal := 45; first_seen := 3 |})]
  = ([("Home", {| signal := 45; first_seen := 3 |})], [Appeared "Home" 45]) ∧
  message (Appeared "Home" 45) = "New device detected with signal strength 45%".
Proof. split; reflexivity. Qed.

Example analyze_stronger_network :
  analyze_network_changes [("Home", {| signal := 45; first_seen := 3 |})]
    [("Home", {| signal := 70; first_seen := 9 |})]
  = ([("Home", {| signal := 70; first_seen := 3 |})],
     [StrengthenedSignificantly "Home" 45 70]) ∧
  message (StrengthenedSignificantly "Home" 45 70)
  = "Device Home moving closer. Signal increased from 45% to 70%".
Proof. split; reflexivity. Qed.

Example analyze_lost_network :
  analyze_network_changes [("Home", {| signal := 45; first_seen := 3 |})] []
  = ([], [Disappeared "Home"]) ∧
  message (Disappeared "Home") = "Device Home moved out of range".
Proof. split; reflexivity. Qed.

(** A signal that is no number ends the loop: [int] raises [ValueError],
    which only [start_monitoring] catches. *)
Example monitoring_stops_on_bad_signal :
  cycle (λ i, Z.of_nat i) [("Home", {| signal := 45; first_seen := 3 |})]
    (Output (Py.unlines ["SSID 1 : Home"; "         Signal             : n/a"]))
  = ([("Home", {| signal := 45; first_seen := 3 |})],
     [Print "Error: invalid literal for int() with base 10: 'n/a'"], false).
Proof. vm_compute. reflexivity. Qed.
End phone_detector_cycle.

(** ** Known state, keys and names in both scripts *)

Section tracking.
Import WifiMonitor.
Implicit Types (st : state) (network : profile) (k : string).

Local Ltac by_evaluation := apply (bool_decide_unpack _); vm_compute; exact I.

(** C3, as stated, fails for the monitor with the database: its known
    networks are a cache of the named networks, which a cycle never
    shrinks and extends only with a network that gets a name. Here the
    cache holds AA:1 and the scan holds BB:2, whose prompt is closed. *)
Lemma known_state_differs_from_latest_scan :
  let st := init [{| row_bssid := "AA:1"; row_ssid := Some "Home";
                     row_custom_name := Some "Mum";
                     first_seen := "2024-05-01 10:00:00";
                     last_seen := "2024-05-01 10:00:00" |}] in
  let results := [{| bssid := "BB:2"; ssid := "Cafe"; signal := 70 |}] in
  let world := λ _ : nat, {| typed := Cancelled; storage_fails := false;
                             now := "2024-05-02 09:00:00" |} in
  let st' := (monitor_cycle world st (ScanResults results)).1 in
  keys (known_networks st') = ["AA:1"] ∧
  bssid <$> results = ["BB:2"] ∧
  ¬ (∀ k, k ∈ keys (known_networks st') ↔ k ∈ bssid <$> results).
Proof.
  intros st results world st'. split; [reflexivity|]. split; [reflexivity|].
  intros H. specialize (H "AA:1"). cbn in H.
  assert ("AA:1" ∈ ["BB:2"]) as Hin by (apply H; left).
  apply list_elem_of_singleton in Hin. discriminate.
Qed.

(** C3, amended. In the phone detector the keys of the known state after
    the diff step are exactly the keys of the scan. In the monitor with the
    database a cycle removes no key of the cache, and every key it adds is
    the hardware address of a scanned network with a name. *)
Theorem known_state_after_cycle
    (previous current : dict PhoneDetector.network) world st sc k :
  dict_wf previous → dict_wf current →
  (k ∈ keys (PhoneDetector.updated_state previous current) ↔ k ∈ keys current) ∧
  (k ∈ keys (known_networks st) →
   k ∈ keys (known_networks (monitor_cycle world st sc).1)) ∧
  (k ∈ keys (known_networks (monitor_cycle world st sc).1) →
   k ∈ keys (known_networks st) ∨
   ∃ network, network ∈ scan_networks sc ∧ bssid network = k ∧ ssid network ≠ "").
Proof.
  intros Hp Hc. split; [by apply keys_updated_state|].
  rewrite monitor_cycle_scan. split.
  - intros Hk. destruct (dict_get (known_networks st) k) as [e|] eqn:He.
    + eapply dict_get_Some_keys, monitor_cycle_keeps, He.
    + by apply dict_get_None_keys in He.
  - apply monitor_cycle_new_keys.
Qed.

Lemma known_state_after_cycle_witness :
  let previous := [("AA:1", {| PhoneDetector.signal := 45; PhoneDetector.first_seen := 0 |})] in
  let current := [("B", {| PhoneDetector.signal := 24; PhoneDetector.first_seen := 8 |})] in
  dict_wf previous ∧ dict_wf current ∧
  ("B" ∈ keys (PhoneDetector.updated_state previous current) ↔ "B" ∈ keys current).
Proof.
  intros previous current.
  assert (dict_wf previous) as Hp by by_evaluation.
  assert (dict_wf current) as Hc by by_evaluation.
  split; [done|]. split; [done|].
  apply (known_state_after_cycle previous current
           (λ _, {| typed := Cancelled; storage_fails := false; now := "" |})
           (init []) (ScanResults []) "B" Hp Hc).
Defined.

(** C6, as stated, fails. The phone detector keys its diff by the network
    name: two access points that share a name are one entry, under the
    name. The monitor with the database passes over networks without a
    name, so two such access points are no entries at all. *)
Lemma same_name_access_points_share_one_entry :
  let world := λ _ : nat, {| typed := Entered "Guest"; storage_fails := false;
                             now := "2024-05-02 09:00:00" |} in
  PhoneDetector.cycle (λ i, Z.of_nat i) [] (PhoneDetector.Output two_access_points_one_name)
  = ([("Home", {| PhoneDetector.signal := 80; PhoneDetector.first_seen := 0 |})],
     [PhoneDetector.Announce "New device detected very close by with signal strength 80%"],
     true) ∧
  monitor_cycle world (init [])
    (ScanResults [{| bssid := "aa:aa:aa:aa:aa:01"; ssid := ""; signal := 40 |};
                  {| bssid := "aa:aa:aa:aa:aa:02"; ssid := ""; signal := 80 |}])
  = (init [], []).
Proof. intros world. split; vm_compute; reflexivity. Qed.

(** C6, amended. The monitor with the database keys its cache by the
    hardware address: a visit changes no entry but that of the address it
    visits, whatever the names, and a network that gets a name is entered
    under its address; a network without a name is passed over. The phone
    detector keys its dictionary by the network name: every key of a scan
    is the name on a line that names a network, is not empty, and occurs
    once. *)
Theorem tracking_keys clock text nets out world st network k :
  PhoneDetector.get_networks clock (PhoneDetector.Output text) = (PhoneDetector.Ok nets, out) →
  (dict_wf nets ∧
   ∀ k', k' ∈ keys nets →
     k' ≠ "" ∧ ∃ line, line ∈ Py.split "010" text ∧ names_network line = true
                       ∧ k' = name_of line) ∧
  (k ≠ bssid network →
   dict_get (known_networks (visit_state world st network)) k
   = dict_get (known_networks st) k) ∧
  (ssid network = "" → visit_state world st network = st) ∧
  (∀ n, ssid network ≠ "" → dict_get (known_networks st) (bssid network) = None →
     (prompt_for_name (world (prompts st)) st (ssid network) (bssid network)).1 = Some n →
     n ≠ "" →
     dict_get (known_networks (visit_state world st network)) (bssid network)
     = Some {| known_ssid := Some (ssid network); custom_name := Some n |}).
Proof.
  intros Hget. split; [split|split; [|split]].
  - by eapply get_networks_wf.
  - intros k' Hk'. cbn [PhoneDetector.get_networks] in Hget. simplify_eq.
    match goal with H : PhoneDetector.parse_lines _ _ _ _ _ = _ |- _ =>
      destruct (parse_lines_keys _ _ _ _ _ _ _ H Hk') as [Hin|?]; [|done] end.
    by apply elem_of_nil in Hin.
  - intros Hne. destruct (visit_state_cache world st network)
      as [->|(_ & _ & n & _ & ->)]; [done|].
    by rewrite dict_get_set_ne.
  - intros Hs. unfold visit_state. by rewrite visit_empty_ssid.
  - intros n Hs%py_truthy_ne Hnone Hname Hn.
    destruct (prompt_for_name_named _ _ _ _ _ Hname Hn) as [_ Hcache].
    unfold visit_state, visit. rewrite Hs, Hnone. cbn [negb].
    destruct (prompt_for_name _ st _ _) as [name st']. cbn [fst snd] in *.
    subst name.
    destruct (truthy (Some n)); cbn [fst]; rewrite Hcache; apply dict_get_set_eq.
Qed.

Lemma tracking_keys_witness :
  PhoneDetector.get_networks (λ i, Z.of_nat i)
    (PhoneDetector.Output two_access_points_one_name)
  = (PhoneDetector.Ok [("Home", {| PhoneDetector.signal := 80;
                                   PhoneDetector.first_seen := 0 |})], []) ∧
  dict_wf [("Home", {| PhoneDetector.signal := 80; PhoneDetector.first_seen := 0 |})].
Proof.
  assert (PhoneDetector.get_networks (λ i, Z.of_nat i)
            (PhoneDetector.Output two_access_points_one_name)
          = (PhoneDetector.Ok [("Home", {| PhoneDetector.signal := 80;
                                           PhoneDetector.first_seen := 0 |})], []))
    as Hget by (vm_compute; reflexivity).
  split; [exact Hget|].
  apply (tracking_keys _ _ _ _
           (λ _, {| typed := Cancelled; storage_fails := false; now := "" |})
           (init []) {| bssid := "aa:aa:aa:aa:aa:01"; ssid := ""; signal := 40 |}
           "Home" Hget).
Defined.

(** C7, as stated, fails: with nothing known, a scan whose only network has
    an empty name gives no announcement and no entry, in either script. *)
Lemma network_without_name_is_dropped :
  let world := λ _ : nat, {| typed := Entered "Guest"; storage_fails := false;
                             now := "2024-05-02 09:00:00" |} in
  PhoneDetector.cycle (λ i, Z.of_nat i) []
    (PhoneDetector.Output one_access_point_without_name)
  = ([], [], true) ∧
  monitor_cycle world (init [])
    (ScanResults [{| bssid := "bb:bb:bb:bb:bb:02"; ssid := ""; signal := 85 |}])
  = (init [], []).
Proof. intros world. split; vm_compute; reflexivity. Qed.

(** C7, amended. A network whose name is empty is dropped from tracking:
    [get_networks] passes over the line that names it, so that no key of a
    scan is empty, and [monitor] passes over it without a change of state or
    an announcement. A network the phone detector sees for the first time
    is announced, and when its signal is above 60 the message has the
    "very close" wording. *)
Theorem networks_without_name_are_dropped
    clock i line rest networks current_ssid text nets out
    world acc network (previous current : dict PhoneDetector.network) k d :
  (names_network line = true → name_of line = "" →
   PhoneDetector.parse_lines clock i (line :: rest) networks current_ssid
   = PhoneDetector.parse_lines clock (S i) rest networks current_ssid) ∧
  (PhoneDetector.get_networks clock (PhoneDetector.Output text) = (PhoneDetector.Ok nets, out) →
   "" ∉ keys nets) ∧
  (ssid network = "" → visit world acc network = acc) ∧
  (dict_wf previous → dict_wf current →
   dict_get previous k = None → dict_get current k = Some d →
   events_of k (PhoneDetector.diff previous current)
   = [PhoneDetector.Appeared k (PhoneDetector.signal d)]) ∧
  (PhoneDetector.signal d > 60 →
   PhoneDetector.message (PhoneDetector.Appeared k (PhoneDetector.signal d))
   = "New device detected very close by with signal strength "
       +:+ Py.str (PhoneDetector.signal d) +:+ "%").
Proof.
  split; [|split; [|split; [|split]]].
  - apply parse_lines_empty_name.
  - intros Hget Hin. cbn [PhoneDetector.get_networks] in Hget. simplify_eq.
    match goal with H : PhoneDetector.parse_lines _ _ _ _ _ = _ |- _ =>
      destruct (parse_lines_keys _ _ _ _ _ _ _ H Hin) as [Hnil|[? _]]; [|done] end.
    by apply elem_of_nil in Hnil.
  - apply visit_empty_ssid.
  - intros Hp Hc Hn Hd. by rewrite events_of_diff, Hn, Hd.
  - intros Hgt. cbn [PhoneDetector.message].
    by rewrite bool_decide_eq_true_2.
Qed.

Lemma networks_without_name_are_dropped_witness :
  names_network "SSID 1 : " = true ∧ name_of "SSID 1 : " = "" ∧
  PhoneDetector.parse_lines (λ i, Z.of_nat i) 0
    ["SSID 1 : "; "         Signal             : 85%"] [] None
  = PhoneDetector.parse_lines (λ i, Z.of_nat i) 1
      ["         Signal             : 85%"] [] None.
Proof.
  split; [reflexivity|]. split; [reflexivity|].
  apply (networks_without_name_are_dropped (λ i, Z.of_nat i) 0 "SSID 1 : "
           ["         Signal             : 85%"] [] None
           "" [] []
           (λ _, {| typed := Cancelled; storage_fails := false; now := "" |})
           (init [], []) {| bssid := "bb:bb:bb:bb:bb:02"; ssid := ""; signal := 85 |}
           [] [] "" {| PhoneDetector.signal := 85; PhoneDetector.first_seen := 0 |});
    reflexivity.
Defined.

(** C9, as stated, fails: a scanned network that is in the cache under a
    name is not announced when the scan gives it without a network name. *)
Lemma known_network_without_name_is_not_announced :
  let st := init [{| row_bssid := "AA:1"; row_ssid := Some "Home";
                     row_custom_name := Some "Mum";
                     first_seen := "2024-05-01 10:00:00";
                     last_seen := "2024-05-01 10:00:00" |}] in
  let world := λ _ : nat, {| typed := Cancelled; storage_fails := false;
                             now := "2024-05-02 09:00:00" |} in
  let network := {| bssid := "AA:1"; ssid := ""; signal := 45 |} in
  dict_get (known_networks st) (bssid network)
  = Some {| known_ssid := Some "Home"; custom_name := Some "Mum" |} ∧
  monitor_cycle world st (ScanResults [network]) = (st, []) ∧
  Say "Detected Mum" ∉ (monitor_cycle world st (ScanResults [network])).2.
Proof.
  intros st world network. split; [reflexivity|]. split; [reflexivity|].
  apply not_elem_of_nil.
Qed.

(** C9, amended. In every cycle of the monitor with the database, every
    scanned network with a network name whose hardware address is in the
    cache under a custom name is announced ("Detected" and the custom
    name), whether or not anything changed since the cycle before. *)
Theorem known_network_is_announced_each_cycle world st sc network e n :
  network ∈ scan_networks sc → ssid network ≠ "" →
  dict_get (known_networks st) (bssid network) = Some e →
  custom_name e = Some n → n ≠ "" →
  Say ("Detected " +:+ n) ∈ (monitor_cycle world st sc).2 ∧
  Print ("Detected known network: " +:+ n +:+ " (" +:+ ssid network +:+ ")")
    ∈ (monitor_cycle world st sc).2.
Proof.
  intros Hin Hs Hk Hn Hne. rewrite monitor_cycle_scan.
  apply list_elem_of_split in Hin as (l1 & l2 & ->).
  rewrite monitor_cycle_app. cbn zeta. cbn [snd].
  rewrite monitor_cycle_cons. cbn [snd].
  rewrite (visit_out_known _ _ _ e n); [| done | by apply monitor_cycle_keeps | done..].
  rewrite !elem_of_app, !elem_of_cons. split; right; left; [right|]; by left.
Qed.

Lemma known_network_is_announced_each_cycle_witness :
  let st := init [{| row_bssid := "AA:1"; row_ssid := Some "Home";
                     row_custom_name := Some "Mum";
                     first_seen := "2024-05-01 10:00:00";
                     last_seen := "2024-05-01 10:00:00" |}] in
  let world := λ _ : nat, {| typed := Cancelled; storage_fails := false;
                             now := "2024-05-02 09:00:00" |} in
  let network := {| bssid := "AA:1"; ssid := "Home"; signal := 45 |} in
  Say "Detected Mum" ∈ (monitor_cycle world st (ScanResults [network])).2 ∧
  Say "Detected Mum"
    ∈ (monitor_cycle world (monitor_cycle world st (ScanResults [network])).1
         (ScanResults [network])).2.
Proof.
  intros st world network.
  assert (network ∈ scan_networks (ScanResults [network])) as Hin by left.
  assert (ssid network ≠ "") as Hs by done.
  assert ("Mum" ≠ "") as Hn by done.
  split.
  - apply (known_network_is_announced_each_cycle world st (ScanResults [network])
             network {| known_ssid := Some "Home"; custom_name := Some "Mum" |} "Mum"
             Hin Hs eq_refl eq_refl Hn).
  - apply (known_network_is_announced_each_cycle world
             (monitor_cycle world st (ScanResults [network])).1 (ScanResults [network])
             network {| known_ssid := Some "Home"; custom_name := Some "Mum" |} "Mum"
             Hin Hs eq_refl eq_refl Hn).
Defined.




End tracking.

(** ** Dictionaries: order *)

Section dict_order_facts.
Context {V : Type}.
Implicit Types (d : dict V) (k : string) (v : V).

Lemma keys_dict_set d k v :
  keys (dict_set d k v) = if decide (k ∈ keys d) then keys d else keys d ++ [k].
Proof.
  induction d as [|[k0 v0] d IH]; [done|].
  cbn [dict_set keys fmap list_fmap fst] in *. fold (keys d) in *.
  destruct (decide (k0 = k)) as [->|Hne].
  - rewrite decide_True by left. done.
  - cbn [fmap list_fmap fst]. fold (keys (dict_set d k v)). rewrite IH.
    destruct (decide (k ∈ keys d)) as [Hin|Hin].
    + rewrite decide_True by by right. done.
    + rewrite decide_False; [done|]. intros [?|?]%elem_of_cons; done.
Qed.

Lemma keys_dict_del d k :
  dict_wf d → keys (dict_del d k) = filter (λ k', k' ≠ k) (keys d).
Proof.
  induction d as [|[k0 v0] d IH]; intros Hwf; [done|].
  apply dict_wf_cons in Hwf as [Hk0 Hwf].
  cbn [dict_del keys fmap list_fmap fst]. fold (keys d).
  destruct (decide (k0 = k)) as [->|Hne].
  - rewrite filter_cons_False by (intros ?; done).
    symmetry. apply filter_all. intros k' Hk' ->. done.
  - rewrite filter_cons_True by done. cbn [fmap list_fmap fst].
    fold (keys (dict_del d k)). by rewrite IH.
Qed.

Lemma keys_foldl_del ks : ∀ d,
  dict_wf d → keys (foldl dict_del d ks) = filter (λ k, k ∉ ks) (keys d).
Proof.
  induction ks as [|k0 ks IH]; intros d Hwf; cbn [foldl].
  { symmetry. apply filter_all. intros k _. apply not_elem_of_nil. }
  rewrite IH by by apply dict_wf_del. rewrite keys_dict_del by done.
  rewrite list_filter_filter. apply list_filter_iff. intros k.
  rewrite not_elem_of_cons. tauto.
Qed.

(** Equal keys in equal order and equal lookups: equal dictionaries. *)
Lemma dict_ext d1 : ∀ d2,
  dict_wf d1 → keys d1 = keys d2 →
  (∀ k, dict_get d1 k = dict_get d2 k) → d1 = d2.
Proof.
  induction d1 as [|[k1 v1] d1 IH]; intros [|[k2 v2] d2] Hwf Hkeys Hget; try done.
  apply dict_wf_cons in Hwf as [Hk1 Hwf].
  cbn [keys fmap list_fmap fst] in Hkeys. injection Hkeys as -> Hkeys.
  pose proof (Hget k2) as Hhead. cbn [dict_get] in Hhead.
  rewrite !decide_True in Hhead by done. injection Hhead as ->.
  f_equal. apply IH; [done..|]. intros k. specialize (Hget k). cbn [dict_get] in Hget.
  destruct (decide (k2 = k)) as [<-|Hne]; [|done].
  apply dict_get_None_keys in Hk1 as Hn1. rewrite Hn1. symmetry.
  apply dict_get_None_keys. unfold keys in *. by rewrite <-Hkeys.
Qed.

Lemma keys_app d1 d2 : keys (d1 ++ d2) = keys d1 ++ keys d2.
Proof. apply fmap_app. Qed.

Lemma dict_get_app d1 d2 k :
  dict_get (d1 ++ d2) k
  = match dict_get d1 k with Some v => Some v | None => dict_get d2 k end.
Proof.
  induction d1 as [|[k0 v0] d1 IH]; [done|]. cbn [app dict_get].
  by case_decide.
Qed.

Lemma keys_filter_key (P : string → Prop) `{!∀ k, Decision (P k)}
    (d : list (string * V)) :
  keys (filter (λ item, P item.1) d) = filter P (keys d).
Proof.
  induction d as [|[k0 v0] d IH]; [done|].
  rewrite filter_cons. cbn [keys fmap list_fmap fst]. rewrite filter_cons.
  unfold keys in *.
  destruct (decide (P k0)); cbn [fmap list_fmap fst]; by rewrite IH.
Qed.

Lemma dict_get_filter_key (P : string → Prop) `{!∀ k, Decision (P k)}
    (d : list (string * V)) k :
  dict_get (filter (λ item, P item.1) d) k
  = if decide (P k) then dict_get d k else None.
Proof.
  induction d as [|[k0 v0] d IH]; [by case_decide|].
  rewrite filter_cons. cbn [fst dict_get].
  destruct (decide (P k0)) as [HP|HP]; cbn [dict_get]; rewrite IH.
  - destruct (decide (k0 = k)) as [<-|]; [by rewrite decide_True | done].
  - destruct (decide (k0 = k)) as [<-|]; [by rewrite !decide_False | done].
Qed.
End dict_order_facts.

(** ** phone-detector.py: the order of announcements and of the known state *)

Section analyze_order.
Import PhoneDetector.
Implicit Types (known current : dict network) (k : string).

Lemma filter_ext_in {A} (P Q : A → Prop) `{!∀ x, Decision (P x)} `{!∀ x, Decision (Q x)}
    (l : list A) :
  (∀ x, x ∈ l → P x ↔ Q x) → filter P l = filter Q l.
Proof.
  induction l as [|x l IH]; intros Hext; [done|].
  rewrite !filter_cons.
  assert (P x ↔ Q x) as Hx by (apply Hext; left).
  rewrite IH by (intros y Hy; apply Hext; by right).
  destruct (decide (P x)), (decide (Q x)); tauto.
Qed.

Lemma keys_first_loop current : ∀ known evs,
  dict_wf current →
  keys (foldl check_new_or_stronger (known, evs) current).1
  = keys known ++ filter (λ k, k ∉ keys known) (keys current).
Proof.
  induction current as [|[k d] current IH]; intros known evs Hwf; cbn [foldl].
  { by rewrite app_nil_r. }
  apply dict_wf_cons in Hwf as [Hk Hwf].
  rewrite check_new_or_stronger_eq, IH by done. cbn [fst].
  rewrite keys_dict_set. cbn [keys fmap list_fmap fst]. fold (keys current).
  rewrite filter_cons. destruct (decide (k ∈ keys known)) as [Hin|Hin].
  - rewrite decide_False by tauto. done.
  - rewrite decide_True by done. rewrite <-(assoc_L (++)). cbn [app]. do 2 f_equal.
    apply filter_ext_in. intros k' Hk'. rewrite elem_of_app, list_elem_of_singleton.
    split; [tauto|]. intros Hn [?|Heq]; [done | by subst].
Qed.

Lemma gone_eq known current :
  dict_wf current →
  gone known current = filter (λ k, k ∉ keys current) (keys known).
Proof.
  intros Hc. unfold gone. rewrite keys_first_loop by done. rewrite filter_app.
  rewrite (filter_none _ (filter _ (keys current))).
  - rewrite app_nil_r. apply list_filter_iff. intros k.
    rewrite dict_mem_false. apply dict_get_None_keys.
  - intros k [_ Hk]%list_elem_of_filter Hm. apply dict_mem_false in Hm.
    by apply dict_get_None_keys in Hm.
Qed.

Lemma keys_refreshed known current :
  keys (omap (refreshed current) known) = filter (λ k, k ∈ keys current) (keys known).
Proof.
  induction known as [|[k old] known IH]; [done|].
  cbn [omap list_omap keys fmap list_fmap fst]. fold (keys known).
  rewrite filter_cons. unfold refreshed at 1. cbn [fst snd].
  destruct (dict_get current k) as [d|] eqn:Hd; cbn [fmap option_fmap option_map].
  - rewrite decide_True by by eapply dict_get_Some_keys.
    cbn [fmap list_fmap fst]. f_equal. apply IH.
  - rewrite decide_False by by apply dict_get_None_keys. apply IH.
Qed.

Lemma dict_get_refreshed known current k :
  dict_get (omap (refreshed current) known) k
  = old ← dict_get known k; (λ d, set_signal old (signal d)) <$> dict_get current k.
Proof.
  induction known as [|[k0 old0] known IH]; [done|].
  cbn [omap list_omap dict_get]. unfold refreshed at 1. cbn [fst snd].
  destruct (decide (k0 = k)) as [->|Hne].
  - destruct (dict_get current k) as [d|] eqn:Hd; cbn [fmap option_fmap option_map].
    + cbn [dict_get]. by rewrite decide_True.
    + rewrite IH. by destruct (dict_get known k).
  - destruct (dict_get current k0) as [d|]; cbn [fmap option_fmap option_map dict_get];
      [by rewrite decide_False|]; apply IH.
Qed.

Lemma keys_newcomers known current :
  keys (newcomers known current) = filter (λ k, k ∉ keys known) (keys current).
Proof. exact (keys_filter_key (λ k, k ∉ keys known) current). Qed.

Lemma dict_get_newcomers known current k :
  dict_get (newcomers known current) k
  = if decide (k ∉ keys known) then dict_get current k else None.
Proof. exact (dict_get_filter_key (λ k, k ∉ keys known) current k). Qed.

Lemma diff_order known current :
  dict_wf current →
  diff known current
  = omap (announced known) current
    ++ (Disappeared <$> filter (λ k, k ∉ keys current) (keys known)).
Proof.
  intros Hc. unfold diff. rewrite analyze_network_changes_eq by done.
  cbn [snd]. by rewrite gone_eq.
Qed.

(** X1. The announcements of one step come in this order: first, in the
    order of the scan, the new networks and the networks that came closer;
    then, in the order of the known state, the networks that are gone. *)
Theorem diff_in_scan_order_then_known_order known current :
  dict_wf current →
  diff known current
  = omap (announced known) current
    ++ (Disappeared <$> filter (λ k, k ∉ keys current) (keys known)).
Proof.
  intros Hc. unfold diff. rewrite analyze_network_changes_eq by done.
  cbn [snd]. f_equal. f_equal. by apply gone_eq.
Qed.

Lemma diff_in_scan_order_then_known_order_witness :
  let known := [("A", {| signal := 10; first_seen := 0 |});
                ("B", {| signal := 10; first_seen := 0 |});
                ("C", {| signal := 10; first_seen := 0 |})] in
  let current := [("D", {| signal := 70; first_seen := 5 |});
                  ("B", {| signal := 40; first_seen := 5 |})] in
  dict_wf current ∧
  diff known current
  = [Appeared "D" 70; StrengthenedSignificantly "B" 10 40;
     Disappeared "A"; Disappeared "C"].
Proof.
  intros known current.
  assert (dict_wf current) as Hc by (apply (bool_decide_unpack _); vm_compute; exact I).
  split; [exact Hc|].
  rewrite (diff_in_scan_order_then_known_order known current Hc). reflexivity.
Defined.

Lemma updated_state_order known current :
  dict_wf known → dict_wf current →
  updated_state known current
  = omap (refreshed current) known ++ newcomers known current.
Proof.
  intros Hk Hc. apply dict_ext.
  - by apply updated_state_wf.
  - unfold updated_state. rewrite analyze_network_changes_eq by done. cbn [fst].
    rewrite keys_foldl_del by by apply first_loop_wf.
    rewrite keys_first_loop by done. rewrite filter_app.
    rewrite keys_app. f_equal.
    + rewrite keys_refreshed. apply filter_ext_in. intros k Hin.
      rewrite elem_of_gone by done.
      destruct (dict_get current k) eqn:Hd.
      * split; [intros _; by eapply dict_get_Some_keys | intros _ [? _]; done].
      * split; [|by intros ?%dict_get_None_keys]. intros Hn. destruct Hn. split; [done|].
        destruct (dict_get known k) eqn:Hkn; [eauto|].
        by apply dict_get_None_keys in Hkn.
    + rewrite keys_newcomers. apply filter_all.
      intros k [_ Hin]%list_elem_of_filter [Hn _]%elem_of_gone; [|done].
      by apply dict_get_None_keys in Hn.
  - intros k. rewrite updated_state_get by done. rewrite dict_get_app, dict_get_refreshed.
    rewrite dict_get_newcomers. unfold merged. cbn [fst snd].
    destruct (dict_get known k) as [old|] eqn:Hkn; cbn [mbind option_bind].
    + destruct (dict_get current k) as [d|]; cbn [fmap option_fmap option_map]; [done|].
      by case_decide.
    + apply dict_get_None_keys in Hkn. rewrite decide_True by done.
      by destruct (dict_get current k).
Qed.

(** X2. The known state after one step: first the known networks that the
    scan has again, in their old order, each with its old [first_seen] and
    the scanned signal; then the networks that are new, in the order of the
    scan, as scanned. *)
Theorem updated_state_in_order known current :
  dict_wf known → dict_wf current →
  updated_state known current
  = omap (refreshed current) known ++ newcomers known current ∧
  (∀ k old d, dict_get known k = Some old → dict_get current k = Some d →
     dict_get (updated_state known current) k
     = Some {| signal := signal d; first_seen := first_seen old |}) ∧
  (∀ k d, dict_get known k = None → dict_get current k = Some d →
     dict_get (updated_state known current) k = Some d).
Proof.
  intros Hk Hc. split; [by apply updated_state_order|].
  split.
  - intros k old d Ho Hd. rewrite updated_state_get, Hd by done.
    unfold merged. cbn [fmap option_fmap option_map fst snd]. by rewrite Ho.
  - intros k d Ho Hd. rewrite updated_state_get, Hd by done.
    unfold merged. cbn [fmap option_fmap option_map fst snd]. by rewrite Ho.
Qed.

Lemma updated_state_in_order_witness :
  let known := [("A", {| signal := 10; first_seen := 0 |});
                ("B", {| signal := 10; first_seen := 1 |});
                ("C", {| signal := 10; first_seen := 2 |})] in
  let current := [("D", {| signal := 70; first_seen := 5 |});
                  ("C", {| signal := 5; first_seen := 6 |});
                  ("B", {| signal := 40; first_seen := 7 |})] in
  dict_wf known ∧ dict_wf current ∧
  updated_state known current
  = [("B", {| signal := 40; first_seen := 1 |});
     ("C", {| signal := 5; first_seen := 2 |});
     ("D", {| signal := 70; first_seen := 5 |})].
Proof.
  intros known current.
  assert (dict_wf known) as Hk by (apply (bool_decide_unpack _); vm_compute; exact I).
  assert (dict_wf current) as Hc by (apply (bool_decide_unpack _); vm_compute; exact I).
  split; [exact Hk|]. split; [exact Hc|].
  rewrite (proj1 (updated_state_in_order known current Hk Hc)). vm_compute. reflexivity.
Defined.
End analyze_order.

(** ** phone-detector.py: silent steps, first steps, runs *)

Section detector_runs.
Import PhoneDetector.
Implicit Types (known current : dict network) (k : string).

Lemma events_of_all_nil (evs : list event) :
  (∀ k, events_of k evs = []) → evs = [].
Proof.
  destruct evs as [|e evs]; [done|]. intros Hall. specialize (Hall (event_id e)).
  unfold events_of in Hall. rewrite filter_cons_True in Hall by done. done.
Qed.

(** X3. A step announces nothing exactly when the scan has the keys of the
    known state and no signal is more than 20 above the stored one; a
    signal that falls, by whatever amount, is never announced. *)
Theorem diff_silent_iff known current :
  dict_wf known → dict_wf current →
  diff known current = [] ↔
  (∀ k, k ∈ keys known ↔ k ∈ keys current) ∧
  (∀ k old d, dict_get known k = Some old → dict_get current k = Some d →
     signal d ≤ signal old + 20).
Proof.
  intros Hk Hc. split.
  - intros Hnil.
    assert (∀ k, events_of k (diff known current) = []) as Hev by by rewrite Hnil.
    split.
    + intros k. specialize (Hev k). rewrite events_of_diff in Hev by done.
      rewrite <-!dict_mem_keys. unfold dict_mem. rewrite !bool_decide_eq_true.
      destruct (dict_get known k), (dict_get current k); try done; split; eauto.
    + intros k old d Ho Hd. specialize (Hev k).
      rewrite events_of_diff, Ho, Hd in Hev by done. unfold signal_jump in Hev.
      case_bool_decide; [done | lia].
  - intros [Hkeys Hsig]. apply events_of_all_nil. intros k.
    rewrite events_of_diff by done.
    destruct (dict_get known k) as [old|] eqn:Ho, (dict_get current k) as [d|] eqn:Hd.
    + rewrite bool_decide_eq_false_2; [done|]. unfold signal_jump.
      specialize (Hsig k old d Ho Hd). lia.
    + apply dict_get_Some_keys, Hkeys, dict_get_None_keys in Ho; done.
    + apply dict_get_Some_keys, Hkeys, dict_get_None_keys in Hd; done.
    + done.
Qed.

Lemma diff_silent_iff_witness :
  let known := [("A", {| signal := 50; first_seen := 0 |});
                ("B", {| signal := 90; first_seen := 1 |})] in
  let current := [("B", {| signal := 5; first_seen := 7 |});
                  ("A", {| signal := 70; first_seen := 7 |})] in
  dict_wf known ∧ dict_wf current ∧ diff known current = [].
Proof.
  intros known current.
  assert (dict_wf known) as Hk by (apply (bool_decide_unpack _); vm_compute; exact I).
  assert (dict_wf current) as Hc by (apply (bool_decide_unpack _); vm_compute; exact I).
  split; [exact Hk|]. split; [exact Hc|].
  apply (diff_silent_iff known current Hk Hc). split.
  - intros k. unfold known, current. cbn [keys fmap list_fmap fst].
    rewrite !elem_of_cons. tauto.
  - intros k old d. unfold known, current. cbn [dict_get].
    repeat case_decide; intros ??; simplify_eq; cbn [signal]; lia.
Defined.

(** X4. With nothing known (at the start, and after a failed scan, which
    empties the known state) a cycle announces every scanned network as
    new, in the order of the scan, and the known state becomes the scan. *)
Theorem cycle_from_nothing clock sc nets out :
  get_networks clock sc = (Ok nets, out) →
  cycle clock [] sc
  = (nets, out ++ ((λ item, Announce (message (Appeared item.1 (signal item.2)))) <$> nets),
     true).
Proof.
  intros Hget. pose proof (get_networks_wf _ _ _ _ Hget) as Hwf.
  unfold cycle. rewrite Hget.
  assert (analyze_network_changes [] nets
          = (updated_state [] nets, diff [] nets)) as ->
    by (unfold updated_state, diff; by destruct (analyze_network_changes [] nets)).
  rewrite updated_state_order, diff_order by (done || constructor).
  cbn [omap list_omap keys fmap list_fmap app]. rewrite filter_nil, fmap_nil, app_nil_r.
  unfold newcomers. rewrite filter_all by (intros; apply not_elem_of_nil).
  do 3 f_equal.
  clear. induction nets as [|[k d] nets IH]; [done|].
  cbn [omap list_omap]. unfold announced at 1. cbn [dict_get fst snd].
  rewrite !fmap_cons. by rewrite IH.
Qed.

Lemma cycle_from_nothing_witness :
  cycle (λ i, Z.of_nat i) [] (Output two_access_points_one_name)
  = ([("Home", {| signal := 80; first_seen := 0 |})],
     [Announce "New device detected very close by with signal strength 80%"], true).
Proof.
  assert (get_networks (λ i, Z.of_nat i) (Output two_access_points_one_name)
          = (Ok [("Home", {| signal := 80; first_seen := 0 |})], [])) as Hget
    by (vm_compute; reflexivity).
  rewrite (cycle_from_nothing _ _ _ _ Hget). reflexivity.
Defined.

Lemma cycle_wf clock known sc :
  dict_wf known → dict_wf (cycle clock known sc).1.1.
Proof.
  intros Hk. unfold cycle.
  destruct (get_networks clock sc) as [[nets|e] out] eqn:Hget; [|done].
  pose proof (updated_state_wf known nets Hk (get_networks_wf _ _ _ _ Hget)) as Hwf.
  unfold updated_state in Hwf. by destruct (analyze_network_changes known nets).
Qed.

Lemma cycle_keys clock known sc nets out k :
  dict_wf known → get_networks clock sc = (Ok nets, out) →
  (cycle clock known sc).2 = true ∧
  (k ∈ keys (cycle clock known sc).1.1 ↔ k ∈ keys nets).
Proof.
  intros Hk Hget. pose proof (get_networks_wf _ _ _ _ Hget) as Hwf.
  pose proof (keys_updated_state known nets k Hk Hwf) as Hkeys.
  unfold cycle. rewrite Hget. unfold updated_state in Hkeys.
  by destruct (analyze_network_changes known nets).
Qed.

Lemma monitoring_snoc clocks pre : ∀ n known sc,
  (∀ i s, pre !! i = Some s → ∃ nets out, get_networks (clocks (n + i)%nat) s = (Ok nets, out)) →
  (monitoring clocks n (pre ++ [sc]) known).1
  = (cycle (clocks (n + length pre)%nat) (monitoring clocks n pre known).1 sc).1.1.
Proof.
  induction pre as [|s pre IH]; intros n known sc Hok.
  { cbn [app monitoring length fst]. rewrite Nat.add_0_r.
    destruct (cycle (clocks n) known sc) as [[known' out] go_on]. by destruct go_on. }
  cbn [app monitoring length].
  destruct (Hok 0%nat s eq_refl) as (nets & out & Hget). rewrite Nat.add_0_r in Hget.
  assert ((cycle (clocks n) known s).2 = true) as Hgo.
  { unfold cycle. rewrite Hget. by destruct (analyze_network_changes known nets). }
  destruct (cycle (clocks n) known s) as [[known' out'] go_on]. cbn [snd] in Hgo. subst go_on.
  specialize (IH (S n) known' sc).
  destruct (monitoring clocks (S n) (pre ++ [sc]) known') as [final o1].
  destruct (monitoring clocks (S n) pre known') as [final' o2]. cbn [fst] in *.
  rewrite IH; [by rewrite Nat.add_succ_r|].
  intros i s' Hi. destruct (Hok (S i) s' Hi) as (? & ? & ?).
  rewrite Nat.add_succ_r in *. eauto.
Qed.

Lemma monitoring_wf clocks scans : ∀ n known,
  dict_wf known → dict_wf (monitoring clocks n scans known).1.
Proof.
  induction scans as [|sc scans IH]; intros n known Hk; [done|].
  cbn [monitoring]. pose proof (cycle_wf (clocks n) known sc Hk) as Hwf.
  destruct (cycle (clocks n) known sc) as [[known' out] go_on]. cbn [fst] in Hwf.
  destruct go_on; [|done]. specialize (IH (S n) known' Hwf).
  by destruct (monitoring clocks (S n) scans known').
Qed.

(** X5. Through a run of the loop the known state never has a name twice,
    and after a run whose scans could all be read the names of the known
    state are exactly the names of the last scan, whatever was known
    before. *)
Theorem monitoring_tracks_last_scan clocks n pre sc known nets out k :
  dict_wf known →
  (∀ i s, pre !! i = Some s →
     ∃ nets' out', get_networks (clocks (n + i)%nat) s = (Ok nets', out')) →
  get_networks (clocks (n + length pre)%nat) sc = (Ok nets, out) →
  dict_wf (monitoring clocks n (pre ++ [sc]) known).1 ∧
  (k ∈ keys (monitoring clocks n (pre ++ [sc]) known).1 ↔ k ∈ keys nets).
Proof.
  intros Hk Hok Hget. split; [by apply monitoring_wf|].
  rewrite monitoring_snoc by done.
  eapply cycle_keys; [by apply monitoring_wf | done].
Qed.

Lemma monitoring_tracks_last_scan_witness :
  let clocks := λ (n i : nat), Z.of_nat (100 * n + i) in
  let pre := [Output one_access_point_without_name; CalledProcessError "exit status 1"] in
  let sc := Output two_access_points_one_name in
  "Home" ∈ keys (monitoring clocks 0 (pre ++ [sc]) []).1.
Proof.
  intros clocks pre sc.
  assert (dict_wf ([] : dict network)) as Hk by constructor.
  assert (get_networks (clocks (0 + length pre)%nat) sc
          = (Ok [("Home", {| signal := 80; first_seen := 200 |})], [])) as Hget
    by (vm_compute; reflexivity).
  assert (∀ i s, pre !! i = Some s →
            ∃ nets' out', get_networks (clocks (0 + i)%nat) s = (Ok nets', out')) as Hok.
  { intros i s Hi. destruct i as [|[|i]]; cbn in Hi; simplify_eq.
    - eexists _, _. vm_compute. reflexivity.
    - eexists _, _. reflexivity. }
  destruct (monitoring_tracks_last_scan clocks 0 pre sc []
              [("Home", {| signal := 80; first_seen := 200 |})] [] "Home" Hk Hok Hget)
    as [_ Hiff].
  apply Hiff. left.
Defined.
End detector_runs.

(** ** phone-detector.py: names and exceptions of [get_networks] *)

Section scan_names.
Import PhoneDetector.

Lemma contains_char_cons c a s :
  Py.contains (String c "") (String a s)
  = bool_decide (c = a) || Py.contains (String c "") s.
Proof. cbn [Py.contains Py.startswith]. by rewrite andb_true_r. Qed.

Lemma split_fields_without c s :
  Forall (λ f, Py.contains (String c "") f = false) (Py.split c s).
Proof.
  induction s as [|a s IH]; cbn [Py.split].
  { by constructor. }
  case_decide as Hc.
  - constructor; [done | exact IH].
  - destruct (Py.split c s) as [|f fs]; [by repeat constructor; rewrite contains_char_cons,
      bool_decide_eq_false_2 by done|].
    apply Forall_cons in IH as [Hf Hfs]. constructor; [|done].
    rewrite contains_char_cons, Hf. by rewrite bool_decide_eq_false_2 by done.
Qed.

Lemma last_field_without c s : Py.contains (String c "") (Py.last_field c s) = false.
Proof.
  unfold Py.last_field. pose proof (split_fields_without c s) as Hall.
  destruct (last (Py.split c s)) as [f|] eqn:Hl; [|done].
  apply last_Some_elem_of in Hl. by apply (proj1 (Forall_forall _ _) Hall).
Qed.

Lemma lstrip_without c s :
  Py.contains (String c "") s = false → Py.contains (String c "") (Py.lstrip s) = false.
Proof.
  induction s as [|a s IH]; [done|]. cbn [Py.lstrip].
  destruct (Py.isspace a); [|done].
  rewrite contains_char_cons. intros [_ ?]%orb_false_elim. auto.
Qed.

Lemma rstrip_without c s :
  Py.contains (String c "") s = false → Py.contains (String c "") (Py.rstrip s) = false.
Proof.
  induction s as [|a s IH]; [done|]. cbn [Py.rstrip].
  rewrite contains_char_cons. intros [Ha Hs]%orb_false_elim. specialize (IH Hs).
  destruct (Py.rstrip s) as [|b r].
  - destruct (Py.isspace a); [done|]. by rewrite contains_char_cons, Ha.
  - by rewrite contains_char_cons, Ha, IH.
Qed.

Lemma rstrip_idemp s : Py.rstrip (Py.rstrip s) = Py.rstrip s.
Proof.
  induction s as [|a s IH]; [done|]. cbn [Py.rstrip].
  destruct (Py.rstrip s) as [|b r] eqn:Hr.
  - destruct (Py.isspace a) eqn:Ha; [done|]. cbn [Py.rstrip]. by rewrite Ha.
  - cbn [Py.rstrip] in *. by rewrite IH.
Qed.

Lemma lstrip_head s a t : Py.lstrip s = String a t → Py.isspace a = false.
Proof.
  induction s as [|b s IH]; [done|]. cbn [Py.lstrip].
  destruct (Py.isspace b) eqn:Hb; [done|]. by intros [= <- <-].
Qed.

Lemma rstrip_head s a t :
  Py.rstrip s = String a t → ∃ t', s = String a t'.
Proof.
  destruct s as [|b s]; [done|]. cbn [Py.rstrip].
  destruct (Py.rstrip s); [destruct (Py.isspace b)|]; intros ?; simplify_eq; eauto.
Qed.

Lemma strip_idemp s : Py.strip (Py.strip s) = Py.strip s.
Proof.
  unfold Py.strip.
  assert (Py.lstrip (Py.rstrip (Py.lstrip s)) = Py.rstrip (Py.lstrip s)) as ->.
  { destruct (Py.rstrip (Py.lstrip s)) as [|a t] eqn:Hr; [done|].
    apply rstrip_head in Hr as [t' Hl]. apply lstrip_head in Hl.
    cbn [Py.lstrip]. by rewrite Hl. }
  apply rstrip_idemp.
Qed.

(** X6. Every name that [get_networks] records is the name given on a line
    with [SSID] and without [BSSID]; it is not empty, has no blanks around
    it and no colon in it (of a name with a colon only what follows the
    last colon is recorded), and it is recorded once. *)
Theorem scanned_names clock text nets out k :
  get_networks clock (Output text) = (Ok nets, out) → k ∈ keys nets →
  dict_wf nets ∧ k ≠ "" ∧ Py.strip k = k ∧ Py.contains ":" k = false ∧
  ∃ line, line ∈ Py.split "010" text ∧ names_network line = true ∧ k = name_of line.
Proof.
  intros Hget Hk. split; [by eapply get_networks_wf|].
  cbn [get_networks] in Hget. simplify_eq.
  match goal with H : parse_lines _ _ _ _ _ = _ |- _ =>
    destruct (parse_lines_keys _ _ _ _ _ _ _ H Hk) as [Hin|(Hne & line & Hl & Hn & ->)] end.
  { by apply elem_of_nil in Hin. }
  split; [done|]. split; [apply strip_idemp|]. split; [|eauto].
  unfold name_of, Py.strip. apply rstrip_without, lstrip_without, last_field_without.
Qed.

Lemma scanned_names_witness :
  let text := Py.unlines ["SSID 1 :   Cafe: Upstairs  "; "    Signal : 55%"] in
  get_networks (λ i, Z.of_nat i) (Output text)
  = (Ok [("Upstairs", {| signal := 55; first_seen := 0 |})], []) ∧
  Py.contains ":" "Upstairs" = false.
Proof.
  intros text.
  assert (get_networks (λ i, Z.of_nat i) (Output text)
          = (Ok [("Upstairs", {| signal := 55; first_seen := 0 |})], [])) as Hget
    by (vm_compute; reflexivity).
  split; [exact Hget|].
  assert ("Upstairs" ∈ keys [("Upstairs", {| signal := 55; first_seen := 0 |})]) as Hin by left.
  destruct (scanned_names _ _ _ _ "Upstairs" Hget Hin) as (_ & _ & _ & Hc & _).
  exact Hc.
Defined.

(** [networks[current_ssid]] always exists. *)
Lemma parse_lines_raises clock lines : ∀ i networks current_ssid e,
  (∀ c, current_ssid = Some c → is_Some (dict_get networks c)) →
  parse_lines clock i lines networks current_ssid = Raise e →
  ∃ line, line ∈ lines ∧ Py.contains "Signal" line = true ∧
          e = ValueError (signal_text line) ∧ Py.int (signal_text line) = None.
Proof.
  induction lines as [|line lines IH]; intros i networks cur e Hinv Hp; [done|].
  cbn [parse_lines] in Hp. fold (signal_text line) in Hp.
  assert ((∃ line', line' ∈ lines ∧ Py.contains "Signal" line' = true ∧
             e = ValueError (signal_text line') ∧ Py.int (signal_text line') = None) →
          ∃ line', line' ∈ line :: lines ∧ Py.contains "Signal" line' = true ∧
             e = ValueError (signal_text line') ∧ Py.int (signal_text line') = None)
    as Hweaken.
  { intros (l' & ? & ?). exists l'. split; [by right | done]. }
  destruct (_ && _).
  - destruct (Py.truthy _).
    + apply Hweaken. eapply IH; [|exact Hp].
      intros c [= <-]. rewrite dict_get_set_eq. eauto.
    + apply Hweaken. eauto.
  - destruct cur as [cur|]; [|by apply Hweaken; eauto].
    destruct (Py.contains "Signal" line) eqn:Hs; [|by apply Hweaken; eauto].
    destruct (Py.int (signal_text line)) as [sig|] eqn:Hi.
    + destruct (Hinv cur eq_refl) as [d Hd]. rewrite Hd in Hp.
      apply Hweaken. eapply IH; [|exact Hp].
      intros c [= <-]. rewrite dict_get_set_eq. eauto.
    + simplify_eq. exists line. split; [left | done].
Qed.

(** X7. [get_networks] never raises [KeyError]. An exception leaves it only
    when the scan program itself raised one that is no
    [CalledProcessError], or when a line with [Signal] under a named
    network has, after its last colon and without per cent signs, a text
    that [int] refuses (no decimal literal, or one of more than 4300
    digits): then it is the [ValueError] of this text. *)
Theorem get_networks_raises clock sc e :
  (get_networks clock sc).1 = Raise e →
  (∃ m, sc = ScanError m ∧ e = OtherError m) ∨
  (∃ text line, sc = Output text ∧ line ∈ Py.split "010" text ∧
     Py.contains "Signal" line = true ∧
     e = ValueError (signal_text line) ∧ Py.int (signal_text line) = None).
Proof.
  destruct sc as [text|m|m]; cbn [get_networks fst]; intros Hr; [|done|].
  - right. apply parse_lines_raises in Hr as (line & ? & ? & ? & ?); [|done].
    by exists text, line.
  - left. exists m. by simplify_eq.
Qed.

Lemma get_networks_raises_witness :
  let text := Py.unlines ["SSID 1 : Home"; "         Signal             : n/a"] in
  (get_networks (λ i, Z.of_nat i) (Output text)).1 = Raise (ValueError "n/a") ∧
  Py.int "n/a" = None.
Proof.
  intros text.
  assert ((get_networks (λ i, Z.of_nat i) (Output text)).1 = Raise (ValueError "n/a"))
    as Hr by (vm_compute; reflexivity).
  split; [exact Hr|].
  destruct (get_networks_raises _ _ _ Hr) as [(m & [=] & _)|(t & line & _ & _ & _ & He & Hi)].
  injection He as He. by rewrite He.
Defined.
End scan_names.

(** ** wifi-monitor(1).py: the table and the cache *)

Section table_and_cache.
Import WifiMonitor.
Implicit Types (st : state) (network : profile) (d : database) (r : row).

Lemma load_snoc d r :
  load_known_networks (d ++ [r])
  = dict_set (load_known_networks d) (row_bssid r) (entry_of r).
Proof. unfold load_known_networks. by rewrite foldl_app. Qed.

Lemma keys_load d k : k ∈ keys (load_known_networks d) ↔ k ∈ row_bssid <$> d.
Proof.
  induction d as [|r d IH] using rev_ind.
  { done. }
  rewrite load_snoc, elem_of_keys_set, IH, fmap_app, elem_of_app.
  cbn [fmap list_fmap]. rewrite list_elem_of_singleton. tauto.
Qed.

Lemma load_rows d :
  db_wf d → load_known_networks d = (λ r, (row_bssid r, entry_of r)) <$> d.
Proof.
  induction d as [|r d IH] using rev_ind; intros Hwf; [done|].
  unfold db_wf in Hwf. rewrite fmap_app in Hwf. apply NoDup_app in Hwf as (Hd & Hr & _).
  rewrite load_snoc, fmap_app, <-IH by done. apply dict_set_new.
  apply dict_get_None_keys. rewrite keys_load. intros Hin. apply (Hr _ Hin). left.
Qed.

(** X8. A table without a hardware address in two rows is loaded row by
    row: the cache lists the rows in their order, each under its hardware
    address with its name and label, and has no other key. *)
Theorem load_known_networks_reads_rows d :
  db_wf d →
  known_networks (init d) = (λ r, (row_bssid r, entry_of r)) <$> d ∧
  (∀ r, r ∈ d → dict_get (known_networks (init d)) (row_bssid r) = Some (entry_of r)) ∧
  (∀ b, b ∉ row_bssid <$> d → dict_get (known_networks (init d)) b = None) ∧
  dict_wf (known_networks (init d)).
Proof.
  intros Hwf. cbn [init known_networks].
  assert (dict_wf (load_known_networks d)) as Hdwf.
  { unfold dict_wf, keys. rewrite load_rows by done.
    rewrite <-list_fmap_compose. exact Hwf. }
  split; [by apply load_rows|]. split; [|split; [|done]].
  - intros r Hr. apply dict_get_elem_of; [done|]. rewrite load_rows by done.
    apply list_elem_of_fmap. by exists r.
  - intros b Hb. apply dict_get_None_keys. by rewrite keys_load.
Qed.

Lemma load_known_networks_reads_rows_witness :
  let d := [named_row "AA:1" "Home" "Mum" "2024-05-01 10:00:00";
            named_row "BB:2" "Cafe" "Work" "2024-05-01 11:00:00"] in
  db_wf d ∧
  known_networks (init d)
  = [("AA:1", {| known_ssid := Some "Home"; custom_name := Some "Mum" |});
     ("BB:2", {| known_ssid := Some "Cafe"; custom_name := Some "Work" |})].
Proof.
  intros d.
  assert (db_wf d) as Hwf by (apply (bool_decide_unpack _); vm_compute; exact I).
  split; [exact Hwf|].
  destruct (load_known_networks_reads_rows d Hwf) as [-> _]. reflexivity.
Defined.

(** What [prompt_for_name] does, in two cases: nothing but count the
    prompt, or insert one row and one cache entry. *)
Lemma prompt_for_name_cases inp st s b :
  (truthy (prompt_for_name inp st s b).1 = false ∧
   known_networks (prompt_for_name inp st s b).2 = known_networks st ∧
   db (prompt_for_name inp st s b).2 = db st) ∨
  (∃ n, n ≠ "" ∧ typed inp = Entered n ∧ storage_fails inp = false ∧
     (b ∉ row_bssid <$> db st) ∧
     (prompt_for_name inp st s b).1 = Some n ∧
     known_networks (prompt_for_name inp st s b).2
     = dict_set (known_networks st) b {| known_ssid := Some s; custom_name := Some n |} ∧
     db (prompt_for_name inp st s b).2 = db st ++ [named_row b s n (now inp)]).
Proof.
  unfold prompt_for_name, db_insert.
  destruct (typed inp) as [e|e| |name]; [by left..|].
  destruct (Py.truthy name) eqn:Hn; [|left; simpl; by rewrite Hn].
  destruct (storage_fails inp); [by left|].
  cbn [row_bssid]. case_bool_decide as Hin; [by left|].
  right. exists name. apply py_truthy_ne in Hn. done.
Qed.

Lemma prompt_for_name_prompts inp st s b :
  prompts (prompt_for_name inp st s b).2 = S (prompts st).
Proof.
  unfold prompt_for_name. destruct (typed inp); try done.
  destruct (Py.truthy _); [|done]. by destruct (db_insert _ _ _).
Qed.

(** What a visit does to cache and table, in two cases. *)
Lemma visit_state_cases world st network :
  (known_networks (visit_state world st network) = known_networks st ∧
   db (visit_state world st network) = db st) ∨
  (ssid network ≠ "" ∧ dict_get (known_networks st) (bssid network) = None ∧
   ∃ n, n ≠ "" ∧ typed (world (prompts st)) = Entered n ∧
     storage_fails (world (prompts st)) = false ∧
     (bssid network ∉ row_bssid <$> db st) ∧
     known_networks (visit_state world st network)
     = dict_set (known_networks st) (bssid network)
         {| known_ssid := Some (ssid network); custom_name := Some n |} ∧
     db (visit_state world st network)
     = db st ++ [named_row (bssid network) (ssid network) n (now (world (prompts st)))]).
Proof.
  unfold visit_state, visit.
  destruct (Py.truthy (ssid network)) eqn:Hs; cbn [negb]; [|by left].
  apply py_truthy_ne in Hs.
  destruct (dict_get (known_networks st) (bssid network)) as [e|] eqn:Hg.
  { destruct (truthy (custom_name e)); by left. }
  destruct (prompt_for_name_cases (world (prompts st)) st (ssid network) (bssid network))
    as [(_ & Hk & Hd)|(n & Hn & Ht & Hf & Hb & _ & Hk & Hd)];
    destruct (prompt_for_name _ st _ _) as [name st'];
    destruct (truthy name); cbn [fst snd] in *; [by left | by left | |];
    right; (split; [done|]); (split; [done|]); exists n; done.
Qed.

Lemma visit_state_coherent world st network :
  coherent st → coherent (visit_state world st network).
Proof.
  intros [Hwf Hc].
  destruct (visit_state_cases world st network)
    as [[Hk Hd]|(_ & _ & n & _ & _ & _ & Hb & Hk & Hd)]; unfold coherent.
  - by rewrite Hk, Hd.
  - rewrite Hk, Hd, load_snoc, <-Hc. split; [|done].
    unfold db_wf. rewrite fmap_app. apply NoDup_app. split; [done|].
    split; [|apply NoDup_singleton].
    intros b Hin ->%list_elem_of_singleton. done.
Qed.

Lemma monitor_cycle_coherent world results : ∀ st,
  coherent st → coherent (monitor_cycle world st (ScanResults results)).1.
Proof.
  induction results as [|network results IH]; intros st Hc; [done|].
  rewrite monitor_cycle_cons. cbn [fst]. by apply IH, visit_state_coherent.
Qed.

Lemma monitor_coherent world scans : ∀ st,
  coherent st → coherent (monitor world scans st).1.
Proof.
  induction scans as [|sc scans IH]; intros st Hc; [done|].
  cbn [monitor].
  pose proof (monitor_cycle_coherent world (scan_networks sc) st Hc) as H1.
  rewrite <-monitor_cycle_scan in H1.
  destruct (monitor_cycle world st sc) as [st1 out1]. cbn [fst] in H1.
  specialize (IH st1 H1). by destruct (monitor world scans st1).
Qed.

(** X9. The cache stays what the table says. When the monitor starts from
    a table without a hardware address in two rows, then after any run the
    table is again without one, the cache is what [load_known_networks]
    reads from the table, and so a new start finds the very cache that
    the run ended with. *)
Theorem cache_is_loaded_table world scans d :
  db_wf d →
  db_wf (db (monitor world scans (init d)).1) ∧
  known_networks (monitor world scans (init d)).1
  = load_known_networks (db (monitor world scans (init d)).1) ∧
  known_networks (init (db (monitor world scans (init d)).1))
  = known_networks (monitor world scans (init d)).1.
Proof.
  intros Hwf.
  destruct (monitor_coherent world scans (init d)) as [Hwf' Hc]; [by split|].
  split; [done|]. split; [done|]. by rewrite Hc.
Qed.

Lemma cache_is_loaded_table_witness :
  let world := λ n : nat, {| typed := Entered (if decide (n = 0%nat) then "Mum" else "");
                             storage_fails := false; now := "2024-05-02 09:00:00" |} in
  let sc := ScanResults [{| bssid := "AA:1"; ssid := "Home"; signal := 45 |};
                         {| bssid := "BB:2"; ssid := "Cafe"; signal := 70 |}] in
  db_wf [] ∧
  known_networks (init (db (monitor world [sc; sc] (init [])).1))
  = [("AA:1", {| known_ssid := Some "Home"; custom_name := Some "Mum" |})].
Proof.
  intros world sc.
  assert (db_wf []) as Hwf by constructor.
  split; [exact Hwf|].
  destruct (cache_is_loaded_table world [sc; sc] [] Hwf) as (_ & _ & ->). reflexivity.
Defined.
End table_and_cache.

(** ** wifi-monitor(1).py: what a cycle writes, asks and says *)

Section monitor_behaviour.
Import WifiMonitor.
Implicit Types (st : state) (network : profile) (d : database) (r : row).

Lemma visit_state_appends world st network :
  ∃ rows, db (visit_state world st network) = db st ++ rows ∧ Forall fresh_row rows.
Proof.
  destruct (visit_state_cases world st network)
    as [[_ Hd]|(Hs & _ & n & Hn & _ & _ & _ & _ & Hd)].
  - exists []. by rewrite app_nil_r.
  - eexists. split; [exact Hd|]. repeat constructor. by exists (ssid network), n.
Qed.

Lemma monitor_cycle_appends world results : ∀ st,
  ∃ rows, db (monitor_cycle world st (ScanResults results)).1 = db st ++ rows
          ∧ Forall fresh_row rows.
Proof.
  induction results as [|network results IH]; intros st.
  { exists []. by rewrite app_nil_r. }
  rewrite monitor_cycle_cons. cbn [fst].
  destruct (visit_state_appends world st network) as (rows1 & Hd1 & Hf1).
  destruct (IH (visit_state world st network)) as (rows2 & Hd2 & Hf2).
  exists (rows1 ++ rows2). rewrite Hd2, Hd1, (assoc_L (++)). split; [done|].
  by apply Forall_app.
Qed.

(** X10. The monitor only ever appends to the table: after any run the
    rows that were there are there unchanged and in place (none is
    deleted, no [last_seen] is brought up to date), and every row added has
    equal time stamps and a network name and a label that are not empty. *)
Theorem table_is_append_only world scans st :
  ∃ rows, db (monitor world scans st).1 = db st ++ rows ∧ Forall fresh_row rows.
Proof.
  revert st. induction scans as [|sc scans IH]; intros st.
  { exists []. by rewrite app_nil_r. }
  cbn [monitor].
  destruct (monitor_cycle_appends world (scan_networks sc) st) as (rows1 & Hd1 & Hf1).
  rewrite <-monitor_cycle_scan in Hd1.
  destruct (monitor_cycle world st sc) as [st1 out1]. cbn [fst] in Hd1.
  destruct (IH st1) as (rows2 & Hd2 & Hf2).
  destruct (monitor world scans st1) as [st2 out2]. cbn [fst] in *.
  exists (rows1 ++ rows2). rewrite Hd2, Hd1, (assoc_L (++)). split; [done|].
  by apply Forall_app.
Qed.

(** X11. When the cache is what the table says, naming cannot fail on the
    primary key: for a scanned network with a network name whose address
    is not in the cache, a label that is not empty and a storage engine
    that works give one new row, with the time of the prompt in both time
    stamps, one new cache entry at the end of the cache, and the four
    outputs of a named network. *)
Theorem naming_succeeds world st out network n :
  coherent st → ssid network ≠ "" →
  dict_get (known_networks st) (bssid network) = None →
  typed (world (prompts st)) = Entered n → n ≠ "" →
  storage_fails (world (prompts st)) = false →
  visit world (st, out) network
  = ({| known_networks :=
          known_networks st
            ++ [(bssid network,
                 {| known_ssid := Some (ssid network); custom_name := Some n |})];
        db := db st ++ [named_row (bssid network) (ssid network) n
                          (now (world (prompts st)))];
        prompts := S (prompts st) |},
     out ++ [Print (String "010" "New network detected: " +:+ ssid network);
             Say "New signal detected";
             Ask (ssid network) (bssid network);
             Say ("Network named " +:+ n)]).
Proof.
  intros [Hwf Hc] Hs%py_truthy_ne Hk Ht Hn%py_truthy_ne Hf.
  assert (bssid network ∉ row_bssid <$> db st) as Hb.
  { rewrite <-keys_load, <-Hc. by apply dict_get_None_keys. }
  unfold visit. rewrite Hs, Hk. cbn [negb].
  unfold prompt_for_name, prompt_dialogs, db_insert. rewrite Ht, Hn, Hf. cbn [row_bssid].
  rewrite bool_decide_eq_false_2 by done. cbn [truthy default].
  rewrite Hn, dict_set_new by done. by rewrite <-!(assoc_L (++)).
Qed.

Lemma naming_succeeds_witness :
  let world := λ _ : nat, {| typed := Entered "Work"; storage_fails := false;
                             now := "2024-05-02 09:00:00" |} in
  let st := init [named_row "AA:1" "Home" "Mum" "2024-05-01 10:00:00"] in
  let network := {| bssid := "BB:2"; ssid := "Cafe"; signal := 70 |} in
  coherent st ∧
  db (visit world (st, []) network).1
  = [named_row "AA:1" "Home" "Mum" "2024-05-01 10:00:00";
     named_row "BB:2" "Cafe" "Work" "2024-05-02 09:00:00"] ∧
  dict_get (known_networks (visit world (st, []) network).1) "BB:2"
  = Some {| known_ssid := Some "Cafe"; custom_name := Some "Work" |}.
Proof.
  intros world st network.
  assert (coherent st) as Hc.
  { split; [|reflexivity]. apply (bool_decide_unpack _). vm_compute. exact I. }
  assert (ssid network ≠ "") as Hs by done.
  assert ("Work" ≠ "") as Hn by done.
  split; [exact Hc|].
  rewrite (naming_succeeds world st [] network "Work" Hc Hs eq_refl eq_refl Hn eq_refl).
  split; reflexivity.
Defined.

(** A visit is silent exactly for a network without a network name and for
    a network in the cache without a label; it changes nothing then. *)
Lemma visit_out_nil world st network :
  visit_out world st network = [] ↔
  ssid network = "" ∨
  ∃ e, dict_get (known_networks st) (bssid network) = Some e ∧ truthy (custom_name e) = false.
Proof.
  unfold visit_out, visit.
  destruct (Py.truthy (ssid network)) eqn:Hs; cbn [negb].
  2: { split; [|done]. intros _. left. by destruct (ssid network). }
  apply py_truthy_ne in Hs.
  destruct (dict_get (known_networks st) (bssid network)) as [e|] eqn:Hk.
  - destruct (truthy (custom_name e)) eqn:Ht; cbn [snd].
    + split; [done|]. intros [?|(e' & [= <-] & Ht')]; [done | congruence].
    + split; [|done]. intros _. right. eauto.
  - destruct (prompt_for_name _ st _ _) as [name st'].
    destruct (truthy name); cbn [snd]; (split; [done|]);
      intros [?|(e' & [=] & _)]; done.
Qed.

Lemma visit_state_quiet world st network :
  visit_out world st network = [] → visit_state world st network = st.
Proof.
  unfold visit_out, visit_state, visit.
  destruct (Py.truthy (ssid network)); cbn [negb]; [|done].
  destruct (dict_get (known_networks st) (bssid network)) as [e|].
  - by destruct (truthy (custom_name e)).
  - destruct (prompt_for_name _ st _ _) as [name st'].
    by destruct (truthy name).
Qed.

(** X12. A cycle prints, says and asks nothing exactly when every scanned
    network either has no network name or is in the cache without a label;
    such a cycle leaves the monitor as it was. *)
Theorem monitor_cycle_silent_iff world st sc :
  ((monitor_cycle world st sc).2 = [] ↔
   ∀ network, network ∈ scan_networks sc →
     ssid network = "" ∨
     ∃ e, dict_get (known_networks st) (bssid network) = Some e
          ∧ truthy (custom_name e) = false) ∧
  ((monitor_cycle world st sc).2 = [] → (monitor_cycle world st sc).1 = st).
Proof.
  rewrite monitor_cycle_scan. generalize (scan_networks sc). clear sc.
  intros results. revert st.
  induction results as [|network results IH]; intros st.
  { split; [|done]. split; [|done]. intros _ ? Hin. by apply elem_of_nil in Hin. }
  rewrite monitor_cycle_cons. cbn [fst snd].
  destruct (IH (visit_state world st network)) as [Hiff Hst].
  split.
  - split.
    + intros [Hv Hr]%app_eq_nil.
      pose proof (visit_state_quiet _ _ _ Hv) as Hq. rewrite Hq in Hiff, Hr.
      intros n' [->|Hin]%elem_of_cons; [by apply visit_out_nil in Hv|].
      by apply Hiff.
    + intros Hall.
      assert (visit_out world st network = []) as Hv.
      { apply visit_out_nil, Hall. left. }
      pose proof (visit_state_quiet _ _ _ Hv) as Hq. rewrite Hv, Hq in *.
      apply Hiff. intros n' Hin. apply Hall. by right.
  - intros [Hv Hr]%app_eq_nil. rewrite Hst by done. by apply visit_state_quiet.
Qed.

Lemma monitor_cycle_silent_iff_witness :
  let world := λ _ : nat, {| typed := Entered "Guest"; storage_fails := false;
                             now := "2024-05-02 09:00:00" |} in
  let st := init [{| row_bssid := "AA:1"; row_ssid := Some "Home";
                     row_custom_name := None;
                     first_seen := "2024-05-01 10:00:00";
                     last_seen := "2024-05-01 10:00:00" |}] in
  let sc := ScanResults [{| bssid := "AA:1"; ssid := "Home"; signal := 45 |};
                         {| bssid := "CC:3"; ssid := ""; signal := 20 |}] in
  (monitor_cycle world st sc).2 = [] ∧ (monitor_cycle world st sc).1 = st.
Proof.
  intros world st sc.
  destruct (monitor_cycle_silent_iff world st sc) as [Hiff Hst].
  assert ((monitor_cycle world st sc).2 = []) as Hout.
  { apply Hiff. intros network Hin.
    apply elem_of_cons in Hin as [->|Hin].
    - right. eexists. split; reflexivity.
    - apply list_elem_of_singleton in Hin as ->. by left. }
  split; [exact Hout | exact (Hst Hout)].
Defined.

Lemma visit_out_ask world st network s b :
  Ask s b ∈ visit_out world st network →
  ssid network = s ∧ bssid network = b ∧ s ≠ "" ∧
  dict_get (known_networks st) b = None.
Proof.
  unfold visit_out, visit.
  destruct (Py.truthy (ssid network)) eqn:Hs; cbn [negb snd].
  2: { by intros ?%elem_of_nil. }
  apply py_truthy_ne in Hs.
  destruct (dict_get (known_networks st) (bssid network)) as [e|] eqn:Hk.
  - destruct (truthy (custom_name e)); cbn [snd]; intros Hin;
      repeat (apply elem_of_app in Hin as [Hin|Hin]
              || apply elem_of_cons in Hin as [Hin|Hin]
              || apply elem_of_nil in Hin); done.
  - destruct (prompt_for_name _ st _ _) as [name st']. unfold prompt_dialogs.
    destruct (typed (world (prompts st))), (truthy name); cbn [snd]; intros Hin;
      repeat (apply elem_of_app in Hin as [Hin|Hin]
              || apply elem_of_cons in Hin as [Hin|Hin]
              || apply elem_of_nil in Hin); try done; by simplify_eq.
Qed.

(** X13. The monitor never asks about a network that is in the cache: when
    a cycle asks for a name, the hardware address was not in the cache when
    the cycle began, and the question shows the network name, not empty,
    of a scanned network with this address. *)
Theorem asks_only_for_unknown world st sc s b :
  Ask s b ∈ (monitor_cycle world st sc).2 →
  dict_get (known_networks st) b = None ∧ s ≠ "" ∧
  ∃ network, network ∈ scan_networks sc ∧ ssid network = s ∧ bssid network = b.
Proof.
  rewrite monitor_cycle_scan. generalize (scan_networks sc). clear sc.
  intros results. revert st.
  induction results as [|network results IH]; intros st.
  { by intros ?%elem_of_nil. }
  rewrite monitor_cycle_cons. cbn [snd]. intros [Hin|Hin]%elem_of_app.
  - apply visit_out_ask in Hin as (Hs & Hb & Hne & Hk).
    split; [done|]. split; [done|]. exists network. split; [left | done].
  - apply IH in Hin as (Hk & Hne & n' & Hn' & Hs & Hb).
    split; [|split; [done|]].
    + destruct (dict_get (known_networks st) b) as [e|] eqn:He; [|done].
      by rewrite (visit_state_keeps world st network b e He) in Hk.
    + exists n'. split; [by right | done].
Qed.

Lemma asks_only_for_unknown_witness :
  let world := λ _ : nat, {| typed := Cancelled; storage_fails := false;
                             now := "2024-05-02 09:00:00" |} in
  let st := init [named_row "AA:1" "Home" "Mum" "2024-05-01 10:00:00"] in
  let sc := ScanResults [{| bssid := "AA:1"; ssid := "Home"; signal := 45 |};
                         {| bssid := "BB:2"; ssid := "Cafe"; signal := 70 |}] in
  Ask "Cafe" "BB:2" ∈ (monitor_cycle world st sc).2 ∧
  dict_get (known_networks st) "BB:2" = None.
Proof.
  intros world st sc.
  assert (Ask "Cafe" "BB:2" ∈ (monitor_cycle world st sc).2) as Hin.
  { vm_compute. do 4 right. left. }
  split; [exact Hin|].
  by destruct (asks_only_for_unknown world st sc "Cafe" "BB:2" Hin) as [Hk _].
Defined.

Lemma detected_in_cycle world st sc network e n :
  network ∈ scan_networks sc → ssid network ≠ "" →
  dict_get (known_networks st) (bssid network) = Some e →
  custom_name e = Some n → n ≠ "" →
  Say ("Detected " +:+ n) ∈ (monitor_cycle world st sc).2.
Proof.
  intros Hin Hs Hk Hn Hne. rewrite monitor_cycle_scan.
  apply list_elem_of_split in Hin as (l1 & l2 & ->).
  rewrite monitor_cycle_app. cbn zeta. cbn [snd].
  rewrite monitor_cycle_cons. cbn [snd].
  rewrite (visit_out_known _ _ _ e n); [| done | by apply monitor_cycle_keeps | done..].
  rewrite !elem_of_app, !elem_of_cons. right. left. right. by left.
Qed.

(** X14. Naming and detecting compose: once a visit has stored a label for
    a network, every later cycle, whatever the outside world does then,
    says "Detected" and this label whenever it scans the same hardware
    address with a network name, also when that name has changed. *)
Theorem named_network_is_detected world st network n world' pre sc' network' :
  ssid network ≠ "" → dict_get (known_networks st) (bssid network) = None →
  (prompt_for_name (world (prompts st)) st (ssid network) (bssid network)).1 = Some n →
  n ≠ "" →
  network' ∈ scan_networks sc' → bssid network' = bssid network → ssid network' ≠ "" →
  Say ("Network named " +:+ n) ∈ visit_out world st network ∧
  Say ("Detected " +:+ n)
    ∈ (monitor_cycle world'
         (monitor world' pre (visit_state world st network)).1 sc').2.
Proof.
  intros Hs Hk Hname Hn Hin' Hb' Hs'.
  destruct (prompt_for_name_named _ _ _ _ _ Hname Hn) as [_ Hcache].
  apply py_truthy_ne in Hs as Hst. apply py_truthy_ne in Hn as Hnt.
  split.
  - unfold visit_out, visit. rewrite Hst, Hk. cbn [negb].
    destruct (prompt_for_name _ st _ _) as [name st']. cbn [fst] in Hname. subst name.
    cbn [truthy default]. rewrite Hnt. cbn [snd].
    rewrite !elem_of_app, !elem_of_cons. right. by left.
  - apply (detected_in_cycle _ _ _ network'
             {| known_ssid := Some (ssid network); custom_name := Some n |});
      [done | done | | done | done].
    rewrite Hb'.
    assert (dict_get (known_networks (visit_state world st network)) (bssid network)
            = Some {| known_ssid := Some (ssid network); custom_name := Some n |}) as Hv.
    { unfold visit_state, visit. rewrite Hst, Hk. cbn [negb].
      destruct (prompt_for_name _ st _ _) as [name st']. cbn [fst snd] in *. subst name.
      cbn [truthy]. rewrite Hnt. cbn [fst]. rewrite Hcache. apply dict_get_set_eq. }
    revert Hv. generalize (visit_state world st network). clear.
    induction pre as [|sc pre IH]; intros st0 Hv; [done|].
    cbn [monitor].
    pose proof (monitor_cycle_keeps world' (scan_networks sc) st0 _ _ Hv) as H1.
    rewrite <-monitor_cycle_scan in H1.
    destruct (monitor_cycle world' st0 sc) as [st1 out1]. cbn [fst] in H1.
    specialize (IH st1 H1). by destruct (monitor world' pre st1).
Qed.

Lemma named_network_is_detected_witness :
  let world := λ _ : nat, {| typed := Entered "Work"; storage_fails := false;
                             now := "2024-05-02 09:00:00" |} in
  let quiet := λ _ : nat, {| typed := Cancelled; storage_fails := true;
                             now := "2024-05-03 09:00:00" |} in
  let network := {| bssid := "BB:2"; ssid := "Cafe"; signal := 70 |} in
  let later := {| bssid := "BB:2"; ssid := "Cafe 5G"; signal := 30 |} in
  Say "Detected Work"
    ∈ (monitor_cycle quiet
         (monitor quiet [ScanFailed "busy"] (visit_state world (init []) network)).1
         (ScanResults [later])).2.
Proof.
  intros world quiet network later.
  assert (ssid network ≠ "") as Hs by done.
  assert ("Work" ≠ "") as Hn by done.
  assert (later ∈ scan_networks (ScanResults [later])) as Hin by left.
  assert (ssid later ≠ "") as Hs' by done.
  destruct (named_network_is_detected world (init []) network "Work" quiet
              [ScanFailed "busy"] (ScanResults [later]) later
              Hs eq_refl eq_refl Hn Hin eq_refl Hs') as [_ Hd].
  exact Hd.
Defined.
End monitor_behaviour.

(** ** phone-detector.py: reading a signal *)

Section signal_reading.
Import PhoneDetector.

Lemma digit_pretty_N_char (d : N) :
  (d < 10)%N → Py.digit (pretty_N_char d) = Some (Z.of_N d).
Proof.
  intros Hd.
  assert (d = 0 ∨ d = 1 ∨ d = 2 ∨ d = 3 ∨ d = 4 ∨ d = 5 ∨ d = 6 ∨ d = 7
          ∨ d = 8 ∨ d = 9)%N as Hcases by lia.
  repeat (destruct Hcases as [->|Hcases]; [reflexivity|]). by subst.
Qed.

Lemma all_digits_pretty_N_go (x : N) : ∀ s,
  all_digits s = true → all_digits (pretty_N_go x s) = true.
Proof.
  induction (N.lt_wf_0 x) as [x _ IH]; intros s Hs.
  destruct (decide (x = 0)%N) as [->|Hx]; [by rewrite pretty_N_go_0|].
  rewrite pretty_N_go_step by lia. apply IH; [apply N.div_lt; lia|].
  cbn [all_digits]. rewrite Hs, digit_pretty_N_char by (apply N.mod_lt; lia).
  by rewrite bool_decide_eq_true_2 by eauto.
Qed.

(** Reading the digits that [str] writes gives the number back, and counts
    them. *)
Lemma int_digits_pretty_N_go (x : N) : ∀ s,
  ∃ k : nat, String.length (pretty_N_go x s) = (k + String.length s)%nat ∧ ∀ b acc n,
    Py.int_digits b acc n (pretty_N_go x s)
    = Py.int_digits (b || bool_decide (0 < x)%N) (acc * 10 ^ Z.of_nat k + Z.of_N x)
        (n + k) s.
Proof.
  induction (N.lt_wf_0 x) as [x _ IH]; intros s.
  destruct (decide (x = 0)%N) as [->|Hx].
  { exists 0%nat. split; [by rewrite pretty_N_go_0|]. intros b acc n.
    rewrite pretty_N_go_0, Nat.add_0_r.
    rewrite bool_decide_eq_false_2 by lia. rewrite orb_false_r. f_equal. lia. }
  rewrite pretty_N_go_step by lia.
  destruct (IH (x `div` 10)%N) with (s := String (pretty_N_char (x `mod` 10)) s)
    as (k & Hlen & Hgo); [apply N.div_lt; lia|].
  exists (S k). split; [rewrite Hlen; cbn [String.length]; lia|].
  intros b acc n. rewrite Hgo. cbn [Py.int_digits].
  rewrite digit_pretty_N_char by (apply N.mod_lt; lia).
  rewrite (bool_decide_eq_true_2 (0 < x)%N) by lia. rewrite orb_true_r.
  rewrite Nat.add_succ_r. f_equal.
  rewrite Nat2Z.inj_succ, Z.pow_succ_r by lia.
  pose proof (N.div_mod x 10 ltac:(lia)) as Hdm.
  apply (f_equal Z.of_N) in Hdm. rewrite N2Z.inj_add, N2Z.inj_mul in Hdm.
  change (Z.of_N 10) with 10 in Hdm. lia.
Qed.

Lemma no_blank_all_digits s : all_digits s = true → no_blank s = true.
Proof.
  induction s as [|c s IH]; [done|]. cbn [all_digits no_blank].
  intros [Hc Hs]%andb_true_iff. rewrite IH by done. rewrite andb_true_r.
  apply bool_decide_eq_true in Hc as [d Hd]. unfold Py.digit in Hd. unfold Py.isspace.
  destruct (_ && _)%bool eqn:Hr in Hd; [|done].
  apply andb_true_iff in Hr as [H1%Nat.leb_le H2%Nat.leb_le].
  apply negb_true_iff, orb_false_iff.
  split; apply andb_false_iff; [right | right]; apply Nat.leb_gt; lia.
Qed.

Lemma lstrip_no_blank s : no_blank s = true → Py.lstrip s = s.
Proof.
  destruct s as [|c s]; [done|]. cbn [no_blank Py.lstrip].
  intros [Hc _]%andb_true_iff. apply negb_true_iff in Hc. by rewrite Hc.
Qed.

Lemma rstrip_no_blank s : no_blank s = true → Py.rstrip s = s.
Proof.
  induction s as [|c s IH]; [done|]. cbn [no_blank Py.rstrip].
  intros [Hc Hs]%andb_true_iff. apply negb_true_iff in Hc. rewrite IH, Hc by done.
  by destruct s.
Qed.

Lemma strip_no_blank s : no_blank s = true → Py.strip s = s.
Proof.
  intros Hs. unfold Py.strip. rewrite lstrip_no_blank by done. by apply rstrip_no_blank.
Qed.

Lemma pretty_N_positive (p : positive) :
  ∃ c s, pretty (N.pos p) = String c s ∧ all_digits (String c s) = true ∧
         Py.int_digits false 0 0 (String c s)
         = Some (Z.pos p, String.length (String c s), "").
Proof.
  unfold pretty, pretty_N. rewrite decide_False by done.
  pose proof (all_digits_pretty_N_go (N.pos p) "" eq_refl) as Hd.
  destruct (int_digits_pretty_N_go (N.pos p) "") as (k & Hlen & Hgo).
  specialize (Hgo false 0 0%nat). rewrite bool_decide_eq_true_2 in Hgo by lia.
  cbn [orb Py.int_digits] in Hgo. rewrite Z.mul_0_l, Z.add_0_l, Nat.add_0_l in Hgo.
  cbn [String.length] in Hlen. rewrite Nat.add_0_r in Hlen.
  destruct (pretty_N_go (N.pos p) "") as [|c s] eqn:Hp.
  { cbn [Py.int_digits] in Hgo. done. }
  exists c, s. by rewrite Hgo, Hlen.
Qed.

(** [int] on a text of digits, not more than the limit, that are read to
    the end. *)
Lemma int_unsigned_digits c s n :
  Py.int_digits false 0 0 (String c s) = Some (n, String.length (String c s), "") →
  (String.length (String c s) ≤ Py.max_str_digits)%nat →
  Py.int_unsigned (String c s) = Py.IntOk n.
Proof.
  intros Hi Hlen. unfold Py.int_unsigned. rewrite Hi.
  change (String.length (String c s) =? 0)%nat with false. cbv iota.
  by destruct (Nat.ltb_spec Py.max_str_digits (String.length (String c s))); [lia|].
Qed.

(** Before a digit [int] has no blank and no sign to skip. *)
Lemma int_parse_digit c s :
  is_Some (Py.digit c) → Py.int_parse (String c s) = Py.int_unsigned (String c s).
Proof.
  intros [d Hd]. destruct c as [[] [] [] [] [] [] [] []]; done.
Qed.

(** [int] reads back what [str] writes, up to the limit on the number of
    digits. *)
Lemma int_str (n : Z) :
  (decimal_digits n ≤ Py.max_str_digits)%nat → Py.int (Py.str n) = Some n.
Proof.
  unfold decimal_digits, Py.str, pretty, pretty_Z.
  destruct n as [|p|p]; [done|..];
    [change (Z.abs (Z.pos p)) with (Z.pos p) | change (Z.abs (Z.neg p)) with (Z.pos p)];
    cbv iota; unfold pretty, pretty_positive;
    destruct (pretty_N_positive p) as (c & s & -> & Hd & Hi); intros Hlen;
    pose proof (int_unsigned_digits _ _ _ Hi Hlen) as Hu;
    cbn [all_digits] in Hd; apply andb_true_iff in Hd as [Hc%bool_decide_eq_true _].
  - unfold Py.int. by rewrite int_parse_digit, Hu.
  - change ("-" +:+ String c s) with (String "-" (String c s)).
    unfold Py.int, Py.int_parse.
    change (Py.skip_spaces (String "-" (String c s))) with (String "-" (String c s)).
    cbv iota. by rewrite Hu.
Qed.

Lemma plain_all_digits s : all_digits s = true → plain s = true.
Proof.
  induction s as [|c s IH]; [done|]. intros Hd.
  pose proof (no_blank_all_digits _ Hd) as Hb. cbn [all_digits no_blank plain] in *.
  apply andb_true_iff in Hd as [Hc Hs]. apply andb_true_iff in Hb as [Hb _].
  rewrite IH, Hb by done. apply bool_decide_eq_true in Hc as [d Hd].
  destruct c as [[] [] [] [] [] [] [] []]; done.
Qed.

Lemma plain_str (n : Z) : plain (Py.str n) = true.
Proof.
  unfold Py.str, pretty, pretty_Z. destruct n as [|p|p]; [done|..];
    unfold pretty, pretty_positive;
    destruct (pretty_N_positive p) as (c & s & -> & Hd & _).
  - by apply plain_all_digits.
  - change ("-" +:+ String c s) with (String "-" (String c s)).
    change (plain (String "-" (String c s))) with (plain (String c s)).
    by apply plain_all_digits.
Qed.

Lemma split_nonempty c s : Py.split c s ≠ [].
Proof.
  destruct s as [|a s]; [done|]. cbn [Py.split].
  case_decide; [done|]. by destruct (Py.split c s).
Qed.

Lemma split_after_sep c p t :
  ∃ f fs, Py.split c (p +:+ String c t) = (f :: fs) ++ Py.split c t.
Proof.
  induction p as [|a p (f & fs & IH)].
  - exists "", []. change ("" +:+ String c t) with (String c t).
    cbn [Py.split]. by rewrite decide_True.
  - change (String a p +:+ String c t) with (String a (p +:+ String c t)).
    cbn [Py.split]. rewrite IH. case_decide.
    + by exists "", (f :: fs).
    + by exists (String a f), fs.
Qed.

Lemma last_field_after_sep c p t :
  Py.last_field c (p +:+ String c t) = Py.last_field c t.
Proof.
  unfold Py.last_field. destruct (split_after_sep c p t) as (f & fs & ->).
  rewrite last_app. destruct (last (Py.split c t)) as [x|] eqn:Hl; [done|].
  apply last_None in Hl. by apply split_nonempty in Hl.
Qed.

Lemma split_without c t :
  Py.contains (String c "") t = false → Py.split c t = [t].
Proof.
  induction t as [|a t IH]; [done|]. rewrite contains_char_cons.
  intros [Ha Ht]%orb_false_iff. cbn [Py.split]. apply bool_decide_eq_false in Ha.
  rewrite decide_False by congruence. by rewrite IH.
Qed.

Lemma plain_facts u :
  plain u = true →
  Py.contains ":" (u +:+ "%") = false ∧ no_blank (u +:+ "%") = true ∧
  Py.remove_char "%" (u +:+ "%") = u.
Proof.
  induction u as [|c u IH]; [done|]. cbn [plain].
  intros [[[Hb Hc]%andb_true_iff Hp]%andb_true_iff Hu]%andb_true_iff.
  destruct (IH Hu) as (H1 & H2 & H3).
  change (String c u +:+ "%") with (String c (u +:+ "%")).
  apply negb_true_iff, bool_decide_eq_false in Hc, Hp.
  rewrite contains_char_cons, H1. cbn [no_blank Py.remove_char]. rewrite Hb, H2, H3.
  rewrite bool_decide_eq_false_2 by congruence. by rewrite decide_False.
Qed.

(** What is handed to [int] for a line that ends in a colon, a blank, a
    text without blanks, colons and per cent signs, and a per cent sign:
    that text. *)
Lemma signal_text_plain prefix u :
  plain u = true → signal_text (prefix +:+ ": " +:+ u +:+ "%") = u.
Proof.
  intros Hu. destruct (plain_facts u Hu) as (Hc & Hb & Hr).
  unfold signal_text.
  change (": " +:+ u +:+ "%") with (String ":" (String " " (u +:+ "%"))).
  rewrite last_field_after_sep. unfold Py.last_field.
  rewrite split_without by by rewrite contains_char_cons, Hc.
  cbn [last default from_option id]. unfold Py.strip.
  change (Py.lstrip (String " " (u +:+ "%"))) with (Py.lstrip (u +:+ "%")).
  by rewrite lstrip_no_blank, rstrip_no_blank.
Qed.

(** X15. A line of the form [...: n%] is read as the integer [n], for every
    integer [n] of not more than 4300 digits, as [str] writes it: what
    [get_networks] hands to [int] is the decimal text of [n], [int] gives
    [n] back, and under a named network the line sets the signal of that
    network to [n]. *)
Theorem signal_line_is_read prefix (n : Z) clock i rest networks cur d :
  let line := prefix +:+ ": " +:+ Py.str n +:+ "%" in
  (decimal_digits n ≤ Py.max_str_digits)%nat →
  names_network line = false → Py.contains "Signal" line = true →
  dict_get networks cur = Some d →
  signal_text line = Py.str n ∧ Py.int (signal_text line) = Some n ∧
  parse_lines clock i (line :: rest) networks (Some cur)
  = parse_lines clock (S i) rest (dict_set networks cur (set_signal d n)) (Some cur).
Proof.
  intros line Hlim Hn Hs Hd.
  assert (signal_text line = Py.str n) as Ht by apply signal_text_plain, plain_str.
  split; [done|]. split; [by rewrite Ht, int_str|].
  cbn [parse_lines]. fold (names_network line) (signal_text line).
  by rewrite Hn, Hs, Ht, int_str, Hd.
Qed.

Lemma signal_line_is_read_witness :
  let line := "         Signal             : -7%" in
  names_network line = false ∧ Py.contains "Signal" line = true ∧
  parse_lines (λ i, Z.of_nat i) 1 [line]
    [("Home", {| signal := 0; first_seen := 0 |})] (Some "Home")
  = Ok [("Home", {| signal := -7; first_seen := 0 |})].
Proof.
  intros line. split; [reflexivity|]. split; [reflexivity|].
  assert (decimal_digits (-7) ≤ Py.max_str_digits)%nat as Hlim
    by (apply Nat.leb_le; vm_compute; reflexivity).
  destruct (signal_line_is_read "         Signal             " (-7) (λ i, Z.of_nat i) 1 []
              [("Home", {| signal := 0; first_seen := 0 |})] "Home"
              {| signal := 0; first_seen := 0 |} Hlim eq_refl eq_refl eq_refl)
    as (_ & _ & Hp).
  exact Hp.
Defined.
End signal_reading.

(** ** phone-detector.py: reading a listing *)

Section listing.
Import PhoneDetector.

Lemma dict_set_set {V} (d : dict V) k (v v' : V) :
  dict_set (dict_set d k v) k v' = dict_set d k v'.
Proof.
  induction d as [|[k0 v0] d IH]; cbn [dict_set].
  { by rewrite decide_True. }
  case_decide; cbn [dict_set]; [by rewrite decide_True|].
  rewrite decide_False by done. by rewrite IH.
Qed.

Lemma parse_other_lines clock noise : ∀ i rest networks cur,
  Forall other_line noise →
  parse_lines clock i (noise ++ rest) networks cur
  = parse_lines clock (i + length noise) rest networks cur.
Proof.
  induction noise as [|line noise IH]; intros i rest networks cur Hall.
  { cbn [app length]. by rewrite Nat.add_0_r. }
  apply Forall_cons in Hall as [[Hn Hs] Hall].
  cbn [app parse_lines length]. fold (names_network line). rewrite Hn, Hs.
  rewrite Nat.add_succ_r. destruct cur; by apply IH.
Qed.

Lemma name_of_name_line b :
  Py.strip (block_name b) = block_name b → Py.contains ":" (block_name b) = false →
  name_of (name_line b) = block_name b.
Proof.
  intros Hs Hc. unfold name_of, name_line.
  change (": " +:+ block_name b) with (String ":" (String " " (block_name b))).
  rewrite last_field_after_sep. unfold Py.last_field.
  rewrite split_without by by rewrite contains_char_cons, Hc.
  cbn [last default from_option id]. exact Hs.
Qed.

Lemma parse_block clock b i rest networks cur :
  listed_block b →
  parse_lines clock i (block_lines b ++ rest) networks cur
  = parse_lines clock (i + length (block_lines b)) rest
      (dict_set networks (block_name b)
         {| signal := block_signal b; first_seen := clock i |})
      (Some (block_name b)).
Proof.
  intros (Hn & Hne%py_truthy_ne & Hs & Hc & Hd & Hsn & Hss & Hlim & Hm).
  unfold block_lines. cbn [app parse_lines]. fold (names_network (name_line b)).
  fold (name_of (name_line b)). rewrite Hn, name_of_name_line, Hne by done.
  rewrite <-(assoc_L (++)), parse_other_lines by done.
  cbn [app parse_lines]. fold (names_network (signal_line b)) (signal_text (signal_line b)).
  rewrite Hsn, Hss. unfold signal_line at 1 2.
  rewrite signal_text_plain by apply plain_str. rewrite int_str by done.
  rewrite dict_get_set_eq, dict_set_set, parse_other_lines by done.
  f_equal. cbn [length]. rewrite length_app. cbn [length]. lia.
Qed.

Lemma parse_blocks clock blocks : ∀ i networks cur,
  Forall listed_block blocks → NoDup (block_name <$> blocks) →
  (∀ b, b ∈ blocks → block_name b ∉ keys networks) →
  parse_lines clock i (concat (block_lines <$> blocks)) networks cur
  = Ok (networks ++ listed_networks clock i blocks).
Proof.
  induction blocks as [|b blocks IH]; intros i networks cur Hall Hnd Hfresh.
  { cbn. by rewrite app_nil_r. }
  apply Forall_cons in Hall as [Hb Hall]. rewrite fmap_cons in Hnd.
  apply NoDup_cons in Hnd as [Hnb Hnd].
  rewrite fmap_cons. cbn [concat]. rewrite parse_block by done.
  assert (block_name b ∉ keys networks) as Hk by (apply Hfresh; left).
  rewrite dict_set_new by by apply dict_get_None_keys.
  rewrite IH; [|done|done|].
  - cbn [listed_networks]. by rewrite <-(assoc_L (++)).
  - intros b' Hb'. rewrite keys_app, elem_of_app. intros [Hin|Hin].
    + by apply (Hfresh b'); [right|].
    + cbn [keys fmap list_fmap fst] in Hin. apply list_elem_of_singleton in Hin.
      apply Hnb. rewrite <-Hin. by apply list_elem_of_fmap_2.
Qed.

(** X16. A listing is read back. When the lines of the scan text are lines
    that name no network and have no [Signal], followed, for networks of
    different names, by: a line that names the network (a name without
    colon and without blanks around it, after a colon and a blank), other
    lines, one line with the signal as [...: n%] for an integer [n] of
    not more than 4300 digits, other lines; then [get_networks] gives
    exactly these networks, in this order, each with its signal and with
    the time at which its name was read. *)
Theorem get_networks_reads_listing clock text preamble blocks :
  Py.split "010" text = preamble ++ concat (block_lines <$> blocks) →
  Forall other_line preamble → Forall listed_block blocks →
  NoDup (block_name <$> blocks) →
  get_networks clock (Output text)
  = (Ok (listed_networks clock (length preamble) blocks), []).
Proof.
  intros Hlines Hpre Hall Hnd. cbn [get_networks]. rewrite Hlines. f_equal.
  rewrite parse_other_lines by done. cbn [plus].
  rewrite parse_blocks; [done..|]. intros b _. apply not_elem_of_nil.
Qed.

Lemma get_networks_reads_listing_witness :
  let home := {| name_head := "SSID 1 "; block_name := "Home";
                 details := ["    Network type            : Infrastructure";
                             "    BSSID 1                 : aa:aa:aa:aa:aa:01"];
                 signal_head := "         Signal             "; block_signal := 40;
                 more_details := ["         Radio type         : 802.11n"; ""] |} in
  let cafe := {| name_head := "SSID 2 "; block_name := "Cafe";
                 details := ["    BSSID 1                 : bb:bb:bb:bb:bb:02"];
                 signal_head := "         Signal             "; block_signal := 85;
                 more_details := [""] |} in
  let preamble := [""; "Interface name : Wi-Fi";
                   "There are 2 networks currently visible."; ""] in
  let text := Py.unlines (preamble ++ block_lines home ++ block_lines cafe) in
  get_networks (λ i, Z.of_nat i) (Output text)
  = (Ok [("Home", {| signal := 40; first_seen := 4 |});
         ("Cafe", {| signal := 85; first_seen := 10 |})], []).
Proof.
  intros home cafe preamble text.
  assert (Py.split "010" text = preamble ++ concat (block_lines <$> [home; cafe])) as Hl
    by (vm_compute; reflexivity).
  assert (Forall other_line preamble) as Hpre by (repeat constructor).
  assert (Forall listed_block [home; cafe]) as Hall.
  { assert (∀ n, (n <=? Py.max_str_digits)%nat = true → (n ≤ Py.max_str_digits)%nat)
      as Hle by (intros n; apply Nat.leb_le).
    repeat (apply Forall_cons; split); [| |by apply Forall_nil];
      (split; [reflexivity|]; split; [done|]; split; [reflexivity|];
       split; [reflexivity|]; split; [repeat constructor|];
       split; [reflexivity|]; split; [reflexivity|];
       split; [apply Hle; vm_compute; reflexivity | repeat constructor]). }
  assert (NoDup (block_name <$> [home; cafe])) as Hnd
    by (apply (bool_decide_unpack _); vm_compute; exact I).
  rewrite (get_networks_reads_listing _ text preamble [home; cafe] Hl Hpre Hall Hnd).
  reflexivity.
Defined.
End listing.

(** ** phone-detector.py: several steps in a row *)

Section several_steps.
Import PhoneDetector.
Implicit Types (known current : dict network) (k : string).

(** X17. The detector forgets at once: a network that one scan misses is
    new in the next scan that has it; it is announced as new, and its
    [first_seen] is that of the new scan, whatever was known before. *)
Theorem missed_network_is_new_again known current1 current2 k d :
  dict_wf known → dict_wf current1 → dict_wf current2 →
  dict_get current1 k = None → dict_get current2 k = Some d →
  events_of k (diff (updated_state known current1) current2) = [Appeared k (signal d)] ∧
  dict_get (updated_state (updated_state known current1) current2) k = Some d.
Proof.
  intros Hk H1 H2 Hn Hd.
  pose proof (updated_state_wf known current1 Hk H1) as Hwf.
  assert (dict_get (updated_state known current1) k = None) as Hgone.
  { by rewrite updated_state_get, Hn by done. }
  split.
  - by rewrite events_of_diff, Hgone, Hd by done.
  - rewrite updated_state_get, Hd by done. unfold merged.
    cbn [fmap option_fmap option_map fst snd]. by rewrite Hgone.
Qed.

Lemma missed_network_is_new_again_witness :
  let known := [("Home", {| signal := 45; first_seen := 0 |})] in
  let current2 := [("Home", {| signal := 50; first_seen := 20 |})] in
  dict_wf known ∧ dict_wf current2 ∧
  events_of "Home" (diff (updated_state known []) current2) = [Appeared "Home" 50] ∧
  dict_get (updated_state (updated_state known []) current2) "Home"
  = Some {| signal := 50; first_seen := 20 |}.
Proof.
  intros known current2.
  assert (∀ n : network, dict_wf [("Home", n)]) as Hwf.
  { intros n. apply dict_wf_cons. split; [apply not_elem_of_nil | constructor]. }
  assert (dict_wf ([] : dict network)) as Hnil by constructor.
  split; [apply Hwf|]. split; [apply Hwf|].
  apply (missed_network_is_new_again known [] current2 "Home"
           {| signal := 50; first_seen := 20 |} (Hwf _) Hnil (Hwf _) eq_refl eq_refl).
Defined.

(** X18. The stored signal follows every scan, so the test is always
    against the scan before: a network whose signal rises from scan to scan
    by 20 or less each time is never announced, however far it rises in
    all. *)
Theorem gradual_rise_is_never_announced known scans k old :
  dict_wf known → Forall dict_wf scans →
  dict_get known k = Some old → gradual k (signal old) scans →
  events_of k (run_diffs known scans) = [].
Proof.
  revert known old.
  induction scans as [|current scans IH]; intros known old Hk Hall Ho Hg; [done|].
  apply Forall_cons in Hall as [Hc Hall]. destruct Hg as (d & Hd & Hle & Hg).
  cbn [run_diffs]. rewrite events_of_app, events_of_diff, Ho, Hd by done.
  rewrite bool_decide_eq_false_2 by lia. cbn [app].
  apply (IH _ (merged known (k, d))); [by apply updated_state_wf | done | |].
  - by rewrite updated_state_get, Hd by done.
  - by rewrite signal_merged.
Qed.

Lemma gradual_rise_is_never_announced_witness :
  let at_signal s := [("Phone", {| signal := s; first_seen := s |})] in
  dict_wf (at_signal 10) ∧
  events_of "Phone" (run_diffs (at_signal 10)
                       [at_signal 30; at_signal 50; at_signal 70; at_signal 90]) = [].
Proof.
  intros at_signal.
  assert (∀ s, dict_wf (at_signal s)) as Hwf.
  { intros s. apply dict_wf_cons. split; [apply not_elem_of_nil | constructor]. }
  split; [apply Hwf|].
  apply (gradual_rise_is_never_announced (at_signal 10) _ "Phone"
           {| signal := 10; first_seen := 10 |} (Hwf _)).
  - repeat (apply Forall_cons; split; [apply Hwf|]). by apply Forall_nil.
  - reflexivity.
  - cbn [gradual at_signal dict_get]. unfold signal_jump.
    repeat (eexists; split; [reflexivity|]; split; [cbn [signal]; lia|]). exact I.
Defined.
End several_steps.
